(** * Nine-grid slicing tool: a shallow embedding of [App.tsx]

    The component [App] keeps its React state in ten [useState] cells and
    drives the slicing pipeline from three handlers: [handleFileChange],
    [handleProcess] and [handleDownloadAll].  The handlers are embedded as
    functions that emit the list of effects they perform (state setters,
    console output, slice productions, archive operations); the React state
    after a handler is the fold of its setters over the state before.

    The file [src/App.tsx] carries two revisions of the component.  They
    differ in the texts of some messages and in one extra [setStatus] at
    the guard of [handleProcess]; the embedding is parametric in the
    revision ([Rev1] is the first in the file, [Rev2] the second).

    Numbers.  Pixel sizes and loop counters are integers ([Z], [nat]).  The
    numbers of the settings (start time, end time, frame rate, quality),
    the duration of the media, the times the video is sought to and the
    delay of a frame are JavaScript numbers, that is IEEE 754 doubles: they
    are Rocq's primitive floats, and [+], [-], [*], [/] and [<] on them are
    the operations of the processor, rounding as they do in the browser.
    Module [Binary64] gives the exact rational value of a finite double.
    The progress value is kept as the exact fraction, and [Binary64]
    repeats its computation on doubles. *)

From Stdlib Require Import ZArith QArith Qround Qminmax Qabs Lia Lqa Floats.
From stdpp Require Import list list_numbers strings pretty.

Set Warnings "-inexact-float".

Close Scope Q_scope.
Open Scope Z_scope.

(** ** Doubles *)

Module Binary64.

(** The rational a finite double stands for. *)
Definition to_Q (x : float) : option Q :=
  match Prim2SF x with
  | S754_zero _ => Some 0%Q
  | S754_finite sign m e =>
      let v := if 0 <=? e then inject_Z (Z.pos m * 2 ^ e)
               else Qmake (Z.pos m) (Z.to_pos (2 ^ (- e))) in
      Some (if sign then Qopp v else v)
  | _ => None
  end.

(** [Math.floor] of a finite double, as an integer. *)
Definition floor (x : float) : option Z :=
  match to_Q x with
  | Some v => Some (Qfloor v)
  | None => None
  end.

(** The double is the rational, up to [10^-12]. *)
Definition within_rounding (x : float) (q : Q) : bool :=
  match to_Q x with
  | Some v => Qle_bool (Qabs (v - q)) (1 # 1000000000000)
  | None => false
  end.

(** The argument of [setProgress] in iteration [i]. *)
Definition progress_after (i : nat) : float :=
  ((PrimFloat.of_uint63 (Uint63.of_Z (Z.of_nat i + 1)) / 9) * 100)%float.

(** [Math.round] of a finite double. *)
Definition round (x : float) : option Z :=
  match to_Q x with
  | Some v => Some (Qfloor (v + 1 / 2)%Q)
  | None => None
  end.

End Binary64.

(** [Math.max] and [Math.min] of two numbers: NaN when one of them is
    NaN, and [+0] counts as larger than [-0]. *)
Definition Math_max (a b : float) : float :=
  if PrimFloat.is_nan a || PrimFloat.is_nan b then nan
  else if (a <? b)%float then b
  else if (b <? a)%float then a
  else match classify a with NZero => b | _ => a end.

Definition Math_min (a b : float) : float :=
  if PrimFloat.is_nan a || PrimFloat.is_nan b then nan
  else if (a <? b)%float then a
  else if (b <? a)%float then b
  else match classify a with PZero => b | _ => a end.

(** [Number(t)] for a decimal [t] with one digit after the point, [n]
    being its digits read as an integer ([n = 3] for [0.3]): the double
    nearest to [n / 10].  Below [2^53] the integer [n] is itself a double,
    and the division rounds once. *)
Definition tenths (n : Z) : float :=
  (of_uint63 (Uint63.of_Z n) / 10)%float.

(** [Number(x.toFixed(1))].  [toFixed] prints the decimal with one digit
    that is nearest to the exact value of [x], a tie going away from zero,
    and [Number] reads it back.  NaN and the infinities print as
    themselves.  From [2^49] on, doubles are an eighth or more apart and
    the decimal lies within a twentieth of [x], so that reading it back
    gives [x] again. *)
Definition toFixed_1 (x : float) : float :=
  match Binary64.to_Q x with
  | Some v =>
      if Qle_bool 562949953421312 (Qabs v) then x
      else
        let r := tenths (Qfloor (10 * Qabs v + 1 / 2)%Q) in
        if Qle_bool 0 v then r else (- r)%float
  | None => x
  end.

(** ** Data model (types.ts and the state cells of [App]) *)

Inductive Revision := Rev1 | Rev2.

Inductive AppMode := VIDEO | IMAGE.

Global Instance AppMode_eq_dec : EqDecision AppMode.
Proof. solve_decision. Defined.

Record SliceSettings := {
  startTime : float;
  endTime : float;
  fps : float;
  quality : float
}.

Record MediaInfo := {
  duration : float;
  width : Z;
  height : Z
}.

Record File := {
  name : string;
  type : string
}.

(** The rectangle [(sx, sy, sw, sh)] handed to [drawImage]. *)
Record Rect := {
  sx : Z;
  sy : Z;
  sw : Z;
  sh : Z
}.

Global Instance Rect_eq_dec : EqDecision Rect.
Proof. solve_decision. Defined.

(** ** Geometry of the grid ([handleProcess], the lines computing
    [chunkW], [chunkH], [row], [col], [sx], [sy]) *)

Definition chunkW (mediaInfo : MediaInfo) : Z := width mediaInfo / 3.
Definition chunkH (mediaInfo : MediaInfo) : Z := height mediaInfo / 3.

Definition row (i : nat) : nat := (i / 3)%nat.
Definition col (i : nat) : nat := (i mod 3)%nat.

Definition slice_rect (mediaInfo : MediaInfo) (i : nat) : Rect :=
  {| sx := Z.of_nat (col i) * chunkW mediaInfo;
     sy := Z.of_nat (row i) * chunkH mediaInfo;
     sw := chunkW mediaInfo;
     sh := chunkH mediaInfo |}.

(** The nine rectangles in the order in which the loop visits them. *)
Definition partition (mediaInfo : MediaInfo) : list Rect :=
  slice_rect mediaInfo <$> seq 0 9.

(** Pixels of a rectangle: the half-open box [sx, sx+sw) x [sy, sy+sh). *)
Definition pixels (r : Rect) : list (Z * Z) :=
  list_prod (seqZ (sx r) (sw r)) (seqZ (sy r) (sh r)).

Definition covers (r : Rect) (p : Z * Z) : Prop :=
  sx r <= p.1 < sx r + sw r /\ sy r <= p.2 < sy r + sh r.

Definition area (r : Rect) : Z := sw r * sh r.

Definition disjoint_rects (r1 r2 : Rect) : Prop :=
  forall p, ~ (covers r1 p /\ covers r2 p).

(** Pixels covered by at least one rectangle, each listed once. *)
Definition union_pixels (rs : list Rect) : list (Z * Z) :=
  remove_dups (concat (pixels <$> rs)).

Definition union_area (rs : list Rect) : Z :=
  Z.of_nat (length (union_pixels rs)).

Definition media (W H : Z) : MediaInfo :=
  {| duration := 0%float; width := W; height := H |}.

(** ** Promises, blobs and the browser

    A promise that is awaited either resolves, rejects with an [Error]
    carrying a message, or never settles. *)

Inductive Promise (A : Type) :=
| Resolved (a : A)
| Rejected (message : string)
| Pending.
Arguments Resolved {A} a.
Arguments Rejected {A} message.
Arguments Pending {A}.

(** One [gif.addFrame] call: the time the video was sought to, the
    rectangle drawn on the canvas and the [delay] option. *)
Record Frame := {
  frame_time : float;
  frame_rect : Rect;
  delay : float
}.

(** Binary payloads are kept symbolic: what was encoded, not the bytes. *)
Inductive Blob :=
| FileBlob (f : File)
| PngBlob (r : Rect)
| GifBlob (gif_quality : float) (gif_width gif_height : Z)
    (frames : list Frame).

Record SliceResult := {
  blob : Blob;
  url : string
}.

(** A video element answers the [f]-th assignment to [currentTime] of one
    [sliceVideoToGif] call by firing [seeked] after some milliseconds, or
    never.  The assignment itself throws a [TypeError] when the value is
    NaN or an infinity; [currentTime_TypeError] is the text of that error
    in the browser at hand. *)
Record HTMLVideoElement := {
  seeked_after : nat -> float -> option nat;
  currentTime_TypeError : string
}.

(** An image element.  [drawImage] throws an [InvalidStateError] when the
    picture is in the broken state (it could not be loaded or decoded):
    [drawImage_throws] is then the text of that exception, and [None] for
    a picture that can be drawn. *)
Record HTMLImageElement := {
  src : string;
  drawImage_throws : option string
}.

(** What the handlers read from outside the React state: the two refs as
    iteration [i] of the loop finds them, the libraries on [window], and
    the answers of the canvas, the encoder and the archive builder.
    [window_saveAs] tells whether [window.saveAs] is a function, and
    [saveAs_throws] whether calling it throws. *)
Record Browser := {
  imageRef_current : nat -> option HTMLImageElement;
  videoRef_current : nat -> option HTMLVideoElement;
  window_GIF : bool;
  window_JSZip : bool;
  window_saveAs : bool;
  saveAs_throws : bool;
  toBlob_null : Rect -> bool;
  gif_finished : Rect -> bool;
  generateAsync_rejects : bool;
  createObjectURL : Blob -> string
}.

(** ** React state and effects *)

Record AppState := {
  file : option File;
  previewUrl : option string;
  mode : AppMode;
  mediaInfo : MediaInfo;
  settings : SliceSettings;
  isProcessing : bool;
  progress : Q;
  status : string;
  results : list (option SliceResult);
  workerBlobUrl : option string
}.

(** The state of a freshly mounted component. *)
Definition initial_state : AppState :=
  {| file := None;
     previewUrl := None;
     mode := VIDEO;
     mediaInfo := {| duration := 0%float; width := 0; height := 0 |};
     settings := {| startTime := 0%float; endTime := 6%float;
                    fps := 10%float; quality := 10%float |};
     isProcessing := false;
     progress := 0%Q;
     status := "";
     results := replicate 9 None;
     workerBlobUrl := None |}.

Inductive Effect :=
| setFile (f : option File)
| setPreviewUrl (u : option string)
| setMode (m : AppMode)
| setIsProcessing (b : bool)
| setProgress (p : Q)
| setStatus (s : string)
| setResults (rs : list (option SliceResult))
| revokeObjectURL (u : string)
| console_error (message : string)
| start_slice (i : nat)
| new_JSZip
| zip_folder (folderName : string)
| folder_file (fileName : string) (b : Blob)
| zip_generateAsync
| saveAs (content : list (string * Blob)) (fileName : string).

Definition apply_effect (st : AppState) (e : Effect) : AppState :=
  match e with
  | setFile f =>
      {| file := f; previewUrl := previewUrl st; mode := mode st;
         mediaInfo := mediaInfo st; settings := settings st;
         isProcessing := isProcessing st; progress := progress st;
         status := status st; results := results st;
         workerBlobUrl := workerBlobUrl st |}
  | setPreviewUrl u =>
      {| file := file st; previewUrl := u; mode := mode st;
         mediaInfo := mediaInfo st; settings := settings st;
         isProcessing := isProcessing st; progress := progress st;
         status := status st; results := results st;
         workerBlobUrl := workerBlobUrl st |}
  | setMode m =>
      {| file := file st; previewUrl := previewUrl st; mode := m;
         mediaInfo := mediaInfo st; settings := settings st;
         isProcessing := isProcessing st; progress := progress st;
         status := status st; results := results st;
         workerBlobUrl := workerBlobUrl st |}
  | setIsProcessing b =>
      {| file := file st; previewUrl := previewUrl st; mode := mode st;
         mediaInfo := mediaInfo st; settings := settings st;
         isProcessing := b; progress := progress st;
         status := status st; results := results st;
         workerBlobUrl := workerBlobUrl st |}
  | setProgress p =>
      {| file := file st; previewUrl := previewUrl st; mode := mode st;
         mediaInfo := mediaInfo st; settings := settings st;
         isProcessing := isProcessing st; progress := p;
         status := status st; results := results st;
         workerBlobUrl := workerBlobUrl st |}
  | setStatus s =>
      {| file := file st; previewUrl := previewUrl st; mode := mode st;
         mediaInfo := mediaInfo st; settings := settings st;
         isProcessing := isProcessing st; progress := progress st;
         status := s; results := results st;
         workerBlobUrl := workerBlobUrl st |}
  | setResults rs =>
      {| file := file st; previewUrl := previewUrl st; mode := mode st;
         mediaInfo := mediaInfo st; settings := settings st;
         isProcessing := isProcessing st; progress := progress st;
         status := status st; results := rs;
         workerBlobUrl := workerBlobUrl st |}
  | _ => st
  end.

(** The React state once every setter of the list has been applied. *)
Definition run (st : AppState) (es : list Effect) : AppState :=
  foldl apply_effect st es.

(** JavaScript truthiness of [string | null] and of [File | null]. *)
Definition truthy_string (s : option string) : bool :=
  match s with
  | None => false
  | Some EmptyString => false
  | Some _ => true
  end.

Definition truthy {A} (x : option A) : bool :=
  match x with
  | None => false
  | Some _ => true
  end.

(** [a || b] on strings. *)
Definition or_else (a b : string) : string :=
  match a with
  | EmptyString => b
  | _ => a
  end.

Definition is_null {A} (x : option A) : bool := negb (truthy x).

(** ** [handleFileChange] *)

Definition handleFileChange (B : Browser) (st : AppState)
    (selectedFile : option File) : list Effect :=
  match selectedFile with
  | None => []
  | Some f =>
      (if truthy_string (previewUrl st)
       then [revokeObjectURL (default "" (previewUrl st))] else []) ++
      [ setResults (replicate 9 None);
        setProgress 0%Q;
        setStatus "";
        setPreviewUrl (Some (createObjectURL B (FileBlob f)));
        setFile (Some f);
        if String.prefix "image/" (type f) then setMode IMAGE
        else setMode VIDEO ]
  end.

(** ** [sliceImage]

    The executor of the promise draws the picture before it asks for the
    blob: an exception thrown by [drawImage] rejects the promise.  A null
    blob leaves it unsettled, since [resolve] is called only on a blob. *)

Definition sliceImage (B : Browser) (img : HTMLImageElement)
    (sx sy w h : Z) : Promise SliceResult :=
  let r := Build_Rect sx sy w h in
  match drawImage_throws img with
  | Some message => Rejected message
  | None =>
      if toBlob_null B r then Pending
      else Resolved {| blob := PngBlob r;
                       url := createObjectURL B (PngBlob r) |}
  end.

(** ** [sliceVideoToGif] *)

Definition seek_timeout_message (rev : Revision) : string :=
  match rev with
  | Rev1 => "视频定位超时"
  | Rev2 => "视频跳转超时，可能格式不兼容"
  end.

(** [seekTo]: the executor starts the 5000 ms timer, adds the [seeked]
    listener and assigns [video.currentTime].  An assignment that throws
    rejects the promise at once.  Otherwise the timer races the listener:
    the promise resolves when the event comes first and rejects when the
    timer does. *)
Definition seekTo (rev : Revision) (video : HTMLVideoElement)
    (f : nat) (time : float) : Promise unit :=
  if is_finite time then
    match seeked_after video f time with
    | Some ms => if (ms <? 5000)%nat then Resolved tt
                 else Rejected (seek_timeout_message rev)
    | None => Rejected (seek_timeout_message rev)
    end
  else Rejected (currentTime_TypeError video).

(** How often the test [f < totalFrames] lets the body of a loop run. *)
Inductive Iterations :=
| Times (n : nat)
| Endless.

Section Sampling.
Variable s : SliceSettings.

(** [const duration = Math.max(0.1, s.endTime - s.startTime)]. *)
Definition clip_duration : float :=
  Math_max 0.1 (endTime s - startTime s)%float.

(** [const totalFrames = Math.max(1, Math.floor(duration * s.fps))], when
    the product is a finite double; the floor of a finite double and the
    larger of it and 1 are integers. *)
Definition totalFrames : option Z :=
  Z.max 1 <$> Binary64.floor (clip_duration * fps s)%float.

(** [const step = 1 / s.fps]. *)
Definition step : float := (1 / fps s)%float.

(** [for (let f = 0; f < totalFrames; f++)].  The counter [f] is a
    double: it counts exactly up to [2^53] and stays there, so that a
    bound above [2^53] is never reached.  When the product is not finite,
    [totalFrames] is NaN for NaN (the test fails at once), 1 for minus
    infinity, and infinity for infinity. *)
Definition iterations : Iterations :=
  match totalFrames with
  | Some k => if k <=? 2 ^ 53 then Times (Z.to_nat k) else Endless
  | None =>
      let x := (clip_duration * fps s)%float in
      if PrimFloat.is_nan x then Times 0
      else if (x <? 0)%float then Times 1
      else Endless
  end.

(** The loop is embedded with the number of rounds it may still make.  A
    loop without bound is given [2^53] rounds; if it has not been left by
    then it is taken to run for ever. *)
Definition rounds : nat :=
  match iterations with
  | Times n => n
  | Endless => Z.to_nat (2 ^ 53)
  end.

Definition endless : bool :=
  match iterations with
  | Times _ => false
  | Endless => true
  end.

(** The times the loop seeks to when every seek is answered: [n] is the
    number of rounds left and [currentTime] the variable of that name. *)
Fixpoint times (n : nat) (currentTime : float) : list float :=
  match n with
  | O => []
  | S n' =>
      let currentTime' := (currentTime + step)%float in
      currentTime :: (if (endTime s <? currentTime')%float then []
                      else times n' currentTime')
  end.

Definition sample_times : list float := times rounds (startTime s).

(** The number of frames one clip takes when no seek fails. *)
Definition frames_needed : nat := length sample_times.

End Sampling.

Section SliceVideoToGif.
Variables (rev : Revision) (video : HTMLVideoElement).
Variables (sx sy sw sh : Z) (s : SliceSettings).

(** What [gif.addFrame] adds after the seek to [currentTime] and the
    drawing of the rectangle. *)
Definition frame_at (currentTime : float) : Frame :=
  {| frame_time := currentTime;
     frame_rect := Build_Rect sx sy sw sh;
     delay := (1000 / fps s)%float |}.

(** The body of [for (let f = 0; f < totalFrames; f++)], with [n] the
    number of rounds left and [gif] the frames added so far.  The test
    [currentTime > s.endTime] is [s.endTime < currentTime]. *)
Fixpoint capture (n f : nat) (currentTime : float) (gif : list Frame)
    : Promise (list Frame) :=
  match n with
  | O => if endless s then Pending else Resolved gif
  | S n' =>
      match seekTo rev video f currentTime with
      | Resolved _ =>
          let gif' := gif ++ [ frame_at currentTime ] in
          let currentTime' := (currentTime + step s)%float in
          if (endTime s <? currentTime')%float then Resolved gif'
          else capture n' (S f) currentTime' gif'
      | Rejected message => Rejected message
      | Pending => Pending
      end
  end.

(** The whole loop, from [f = 0] and [currentTime = s.startTime]. *)
Definition capture_all : Promise (list Frame) :=
  capture (rounds s) 0 (startTime s) [].

Definition sliceVideoToGif (B : Browser) (workerBlobUrl : option string)
    : Promise SliceResult :=
  if negb (window_GIF B) || negb (truthy_string workerBlobUrl)
  then Rejected "GIF 引擎未就绪"
  else
    match capture_all with
    | Resolved gif =>
        let r := Build_Rect sx sy sw sh in
        if gif_finished B r then
          let b := GifBlob (quality s) sw sh gif in
          Resolved {| blob := b; url := createObjectURL B b |}
        else Pending
    | Rejected message => Rejected message
    | Pending => Pending
    end.
End SliceVideoToGif.

(** ** [handleProcess] *)

Definition status_processing (i : nat) : string :=
  "正在处理第 " +:+ pretty (i + 1)%nat +:+ " / 9 个切片...".

Definition status_failed (message : string) : string :=
  "制作失败: " +:+ or_else message "未知错误".

(** The argument of [setProgress] in iteration [i]. *)
Definition progress_after (i : nat) : Q :=
  ((inject_Z (Z.of_nat i + 1) / 9) * 100)%Q.

(** How the [try] block ends. *)
Inductive Completion :=
| Normal
| Throw (message : string)
| Suspended.

Section Loop.
(** What awaiting the production of slice [i] gives. *)
Variable slice : nat -> Promise SliceResult.

(** [for (let i = 0; i < 9; i++)], with [n = 9 - i] iterations left. *)
Fixpoint for_loop (n i : nat) (newResults : list (option SliceResult))
    : list Effect * Completion :=
  match n with
  | O => ([], Normal)
  | S n' =>
      match slice i with
      | Resolved result =>
          let newResults' := <[i := Some result]> newResults in
          let rest := for_loop n' (S i) newResults' in
          ([ setStatus (status_processing i); start_slice i;
             setResults newResults'; setProgress (progress_after i) ]
             ++ rest.1, rest.2)
      | Rejected message =>
          ([ setStatus (status_processing i); start_slice i ], Throw message)
      | Pending =>
          ([ setStatus (status_processing i); start_slice i ], Suspended)
      end
  end.

(** Everything after the guard of [handleProcess]. *)
Definition process : list Effect :=
  let body := for_loop 9 0 (replicate 9 None) in
  [ setIsProcessing true; setProgress 0%Q; setResults (replicate 9 None) ]
  ++ body.1
  ++ match body.2 with
     | Normal => [ setStatus "所有切片制作完成！"; setIsProcessing false ]
     | Throw message =>
         [ console_error message; setStatus (status_failed message);
           setIsProcessing false ]
     | Suspended => []
     end.
End Loop.

(** The dispatch inside the loop: which producer iteration [i] awaits. *)
Definition produce_slice (rev : Revision) (B : Browser) (st : AppState)
    (i : nat) : Promise SliceResult :=
  let r := slice_rect (mediaInfo st) i in
  match mode st, imageRef_current B i, videoRef_current B i with
  | IMAGE, Some img, _ => sliceImage B img (sx r) (sy r) (sw r) (sh r)
  | VIDEO, _, Some video =>
      sliceVideoToGif rev video (sx r) (sy r) (sw r) (sh r) (settings st)
        B (workerBlobUrl st)
  | _, _, _ => Rejected "未发现媒体源"
  end.

Definition not_ready (st : AppState) : bool :=
  negb (truthy (file st))
  || (bool_decide (mode st = VIDEO) && negb (truthy_string (workerBlobUrl st))).

Definition handleProcess (rev : Revision) (B : Browser) (st : AppState)
    : list Effect :=
  if not_ready st then
    match rev with
    | Rev1 => []
    | Rev2 => [ setStatus "资源未准备好" ]
    end
  else process (produce_slice rev B st).

(** ** [handleDownloadAll] *)

Definition folderName (m : AppMode) : string :=
  match m with IMAGE => "9_grid_images" | VIDEO => "9_grid_gifs" end.

Definition ext (m : AppMode) : string :=
  match m with IMAGE => "png" | VIDEO => "gif" end.

Definition slice_file_name (m : AppMode) (i : nat) : string :=
  "slice_" +:+ pretty (i + 1)%nat +:+ "." +:+ ext m.

(** The body of [results.forEach((res, i) => ...)]. *)
Definition add_files (m : AppMode) (rs : list (option SliceResult))
    : list Effect :=
  concat (imap (fun i res =>
                  match res with
                  | Some r => [ folder_file (slice_file_name m i) (blob r) ]
                  | None => []
                  end) rs).

(** The archive as built: its folder entries, each with folder and name. *)
Definition archive_content (es : list Effect) : list (string * Blob) :=
  let folder := default "" (head (omap (fun e => match e with
                                        | zip_folder n => Some n
                                        | _ => None end) es)) in
  omap (fun e => match e with
                 | folder_file n b => Some (folder +:+ "/" +:+ n, b)
                 | _ => None end) es.

Definition status_packing (rev : Revision) : string :=
  match rev with Rev1 => "正在打包 ZIP..." | Rev2 => "正在生成压缩包..." end.

Definition status_pack_failed (rev : Revision) : string :=
  match rev with Rev1 => "打包失败" | Rev2 => "下载打包失败" end.

(** Everything from [new window.JSZip()] to [window.saveAs] runs inside
    the [try]: a missing library, a rejected [generateAsync], a missing
    [window.saveAs] and a [saveAs] that throws all end in the [catch],
    which sets the failure text.  The effect [saveAs] records that the
    function was called. *)
Definition handleDownloadAll (rev : Revision) (B : Browser) (st : AppState)
    : list Effect :=
  if existsb is_null (results st) then []
  else if negb (window_JSZip B) then [ setStatus (status_pack_failed rev) ]
  else
    let built := [ new_JSZip; zip_folder (folderName (mode st)) ]
                 ++ add_files (mode st) (results st) in
    built ++ [ setStatus (status_packing rev); zip_generateAsync ]
    ++ (if generateAsync_rejects B then [ setStatus (status_pack_failed rev) ]
        else if negb (window_saveAs B)
        then [ setStatus (status_pack_failed rev) ]
        else
          [ saveAs (archive_content built) (folderName (mode st) +:+ ".zip");
            setStatus (if saveAs_throws B then status_pack_failed rev
                       else "下载已开始") ]).

(** ** Observations on effect lists *)

(** The arrays handed to [setResults], in order. *)
Definition published (es : list Effect) : list (list (option SliceResult)) :=
  omap (fun e => match e with setResults rs => Some rs | _ => None end) es.

(** The values handed to [setProgress], in order. *)
Definition progress_values (es : list Effect) : list Q :=
  omap (fun e => match e with setProgress p => Some p | _ => None end) es.

(** The texts handed to [setStatus], in order. *)
Definition statuses (es : list Effect) : list string :=
  omap (fun e => match e with setStatus s => Some s | _ => None end) es.

(** The indices of the slices whose production was begun, in order. *)
Definition started (es : list Effect) : list nat :=
  omap (fun e => match e with start_slice i => Some i | _ => None end) es.

(** What [console.error] printed. *)
Definition console (es : list Effect) : list string :=
  omap (fun e => match e with console_error m => Some m | _ => None end) es.

(** The operations on the archive builder. *)
Definition is_archive_op (e : Effect) : bool :=
  match e with
  | new_JSZip | zip_folder _ | folder_file _ _
  | zip_generateAsync | saveAs _ _ => true
  | _ => false
  end.

Definition archive_ops (es : list Effect) : list Effect :=
  List.filter is_archive_op es.

(** Slot [j] of a result array holds a slice. *)
Definition filled (rs : list (option SliceResult)) (j : nat) : Prop :=
  exists r, rs !! j = Some (Some r).

(** A nine-slot array whose filled slots are exactly [0 .. k-1]. *)
Definition prefix_filled (k : nat) (rs : list (option SliceResult)) : Prop :=
  length rs = 9%nat /\
  forall j, (j < 9)%nat ->
    ((j < k)%nat -> filled rs j) /\ ((k <= j)%nat -> rs !! j = Some None).

(** A result set is complete when all nine slots hold a slice. *)
Definition complete (rs : list (option SliceResult)) : Prop :=
  length rs = 9%nat /\ forall j, (j < 9)%nat -> filled rs j.

(** What the user is told when a run has ended: the status line and the
    console output. *)
Definition failure_report (st : AppState) (es : list Effect)
    : string * list string :=
  (status (run st es), console es).

(** ** Sample inputs *)

(** A video that answers every seek after 30 ms, and one that never does. *)
Definition responsive_video : HTMLVideoElement :=
  {| seeked_after := fun _ _ => Some 30%nat;
     currentTime_TypeError := "The provided double value is non-finite." |}.

Definition stalled_video : HTMLVideoElement :=
  {| seeked_after := fun _ _ => None;
     currentTime_TypeError := "The provided double value is non-finite." |}.

(** A video that answers seek number [f0] of a clip after six seconds and
    every other seek after 30 ms. *)
Definition video_slow_at (f0 : nat) : HTMLVideoElement :=
  {| seeked_after := fun f _ => if (f =? f0)%nat then Some (6 * 1000)%nat
                                else Some 30%nat;
     currentTime_TypeError := "The provided double value is non-finite." |}.

Definition sample_picture : HTMLImageElement :=
  {| src := "blob:preview"; drawImage_throws := None |}.

(** A picture that could not be decoded. *)
Definition broken_picture : HTMLImageElement :=
  {| src := "blob:preview";
     drawImage_throws :=
       Some "The HTMLImageElement provided is in the 'broken' state." |}.

(** A browser in which everything works. *)
Definition sample_browser : Browser :=
  {| imageRef_current := fun _ => Some sample_picture;
     videoRef_current := fun _ => Some responsive_video;
     window_GIF := true;
     window_JSZip := true;
     window_saveAs := true;
     saveAs_throws := false;
     toBlob_null := fun _ => false;
     gif_finished := fun _ => true;
     generateAsync_rejects := false;
     createObjectURL := fun _ => "blob:object" |}.

(** The same browser, except that the video stops answering seeks once
    the loop has reached slice [i]. *)
Definition browser_stalling_at (i : nat) : Browser :=
  {| imageRef_current := imageRef_current sample_browser;
     videoRef_current := fun j => if (j <? i)%nat then Some responsive_video
                                  else Some stalled_video;
     window_GIF := true;
     window_JSZip := true;
     window_saveAs := true;
     saveAs_throws := false;
     toBlob_null := fun _ => false;
     gif_finished := fun _ => true;
     generateAsync_rejects := false;
     createObjectURL := fun _ => "blob:object" |}.

Definition sample_settings : SliceSettings :=
  {| startTime := 0%float; endTime := 1%float; fps := 10%float;
     quality := 10%float |}.

(** A 640 x 480 clip is selected and the GIF worker is loaded. *)
Definition sample_video_state : AppState :=
  {| file := Some {| name := "clip.mp4"; type := "video/mp4" |};
     previewUrl := Some "blob:preview";
     mode := VIDEO;
     mediaInfo := {| duration := 6%float; width := 640; height := 480 |};
     settings := sample_settings;
     isProcessing := false;
     progress := 0%Q;
     status := "";
     results := replicate 9 None;
     workerBlobUrl := Some "blob:worker" |}.

(** A 7 x 10 picture is selected; the GIF worker failed to load. *)
Definition sample_image_state : AppState :=
  {| file := Some {| name := "photo.png"; type := "image/png" |};
     previewUrl := Some "blob:preview";
     mode := IMAGE;
     mediaInfo := media 7 10;
     settings := sample_settings;
     isProcessing := false;
     progress := 0%Q;
     status := "";
     results := replicate 9 None;
     workerBlobUrl := None |}.

(** The rounding the specification speaks of, [Math.round]: the nearest
    integer, halves going up.  The component never calls it. *)
Definition Math_round (x : Q) : Z := Qfloor (x + 1 / 2)%Q.

Definition sample_pdf : File :=
  {| name := "notes.pdf"; type := "application/pdf" |}.

(** ** The other handlers of [App]

    [setMediaInfo], [setSettings] and [setWorkerBlobUrl] are the setters of
    the cells that the three handlers above only read. *)

Definition setMediaInfo (mi : MediaInfo) (st : AppState) : AppState :=
  {| file := file st; previewUrl := previewUrl st; mode := mode st;
     mediaInfo := mi; settings := settings st;
     isProcessing := isProcessing st; progress := progress st;
     status := status st; results := results st;
     workerBlobUrl := workerBlobUrl st |}.

Definition setSettings (update : SliceSettings -> SliceSettings)
    (st : AppState) : AppState :=
  {| file := file st; previewUrl := previewUrl st; mode := mode st;
     mediaInfo := mediaInfo st; settings := update (settings st);
     isProcessing := isProcessing st; progress := progress st;
     status := status st; results := results st;
     workerBlobUrl := workerBlobUrl st |}.

Definition setWorkerBlobUrl (u : option string) (st : AppState) : AppState :=
  {| file := file st; previewUrl := previewUrl st; mode := mode st;
     mediaInfo := mediaInfo st; settings := settings st;
     isProcessing := isProcessing st; progress := progress st;
     status := status st; results := results st;
     workerBlobUrl := u |}.

(** What [onImageLoad] reads from the image element. *)
Record NaturalSize := {
  naturalWidth : Z;
  naturalHeight : Z
}.

(** What [onVideoMetadata] reads from the video element. *)
Record VideoMetadata := {
  element_duration : float;
  videoWidth : Z;
  videoHeight : Z
}.

(** [onImageLoad], given [imageRef.current]. *)
Definition onImageLoad (current : option NaturalSize) (st : AppState)
    : AppState :=
  match current with
  | Some img =>
      setMediaInfo {| duration := 0%float; width := naturalWidth img;
                      height := naturalHeight img |} st
  | None => st
  end.

(** [onVideoMetadata], given [videoRef.current]. *)
Definition onVideoMetadata (current : option VideoMetadata) (st : AppState)
    : AppState :=
  match current with
  | Some video =>
      let duration := element_duration video in
      setSettings
        (fun prev => {| startTime := 0%float;
                        endTime := Math_min 6 (toFixed_1 duration);
                        fps := fps prev;
                        quality := quality prev |})
        (setMediaInfo {| duration := duration; width := videoWidth video;
                         height := videoHeight video |} st)
  | None => st
  end.

(** What [fetch] of the worker script gives: a network error, or a
    response with its [ok] flag and, when the body can be read, its text. *)
Inductive Fetched :=
| NetworkError
| Response (ok : bool) (text : option string).

Definition status_init_failed (rev : Revision) : string :=
  match rev with
  | Rev1 => "错误：GIF 引擎初始化失败。"
  | Rev2 => "错误：GIF 引擎初始化失败，请检查网络连接。"
  end.

(** [initGifWorker], with [objectURL] the URL the browser makes for the
    blob of the worker code. *)
Definition initGifWorker (rev : Revision) (fetched : Fetched)
    (objectURL : string -> string) (st : AppState) : AppState :=
  match fetched with
  | Response true (Some workerCode) =>
      setWorkerBlobUrl (Some (objectURL workerCode)) st
  | _ =>
      run st [ console_error "Failed to load GIF worker:";
               setStatus (status_init_failed rev) ]
  end.

(** The click handler of the re-select button. *)
Definition reselect : list Effect :=
  [ setFile None; setPreviewUrl None ].

(** [disabled={!file || isProcessing}] of the process button. *)
Definition process_button_disabled (st : AppState) : bool :=
  negb (truthy (file st)) || isProcessing st.

(** [results.every(r => r !== null)], the condition under which the
    download button is rendered. *)
Definition download_button_shown (st : AppState) : bool :=
  forallb (fun r => negb (is_null r)) (results st).

(** The values handed to [setIsProcessing], in order. *)
Definition processing_flags (es : list Effect) : list bool :=
  omap (fun e => match e with setIsProcessing b => Some b | _ => None end) es.

(** An effect that no state cell records. *)
Definition silent (e : Effect) : Prop :=
  forall st, apply_effect st e = st.

(** The cells [handleProcess] reads. *)
Definition same_inputs (st st' : AppState) : Prop :=
  file st' = file st /\ mode st' = mode st /\
  mediaInfo st' = mediaInfo st /\ settings st' = settings st /\
  workerBlobUrl st' = workerBlobUrl st.

(** An effect that writes none of the cells [handleProcess] reads. *)
Definition keeps_inputs (e : Effect) : Prop :=
  forall st, same_inputs st (apply_effect st e).

(** A browser in which the picture is mounted throughout a run. *)
Definition image_mounted (B : Browser) : Prop :=
  forall i, exists img, imageRef_current B i = Some img.

(** A browser in which the picture is mounted throughout a run and can
    be drawn. *)
Definition image_usable (B : Browser) : Prop :=
  forall i, exists img,
    imageRef_current B i = Some img /\ drawImage_throws img = None.

(** The slice the image branch of the loop stores for index [i]. *)
Definition png_slice (B : Browser) (mi : MediaInfo) (i : nat) : SliceResult :=
  {| blob := PngBlob (slice_rect mi i);
     url := createObjectURL B (PngBlob (slice_rect mi i)) |}.

Definition sample_photo : File :=
  {| name := "photo.png"; type := "image/png" |}.

(** A browser whose GIF library is not on [window]. *)
Definition browser_without_GIF : Browser :=
  {| imageRef_current := imageRef_current sample_browser;
     videoRef_current := videoRef_current sample_browser;
     window_GIF := false;
     window_JSZip := true;
     window_saveAs := true;
     saveAs_throws := false;
     toBlob_null := fun _ => false;
     gif_finished := fun _ => true;
     generateAsync_rejects := false;
     createObjectURL := fun _ => "blob:object" |}.

(** A browser in which the picture is unmounted once the loop has
    reached slice [i]. *)
Definition browser_unmounted_at (i : nat) : Browser :=
  {| imageRef_current := fun j => if (j <? i)%nat
                                  then Some sample_picture
                                  else None;
     videoRef_current := videoRef_current sample_browser;
     window_GIF := true;
     window_JSZip := true;
     window_saveAs := true;
     saveAs_throws := false;
     toBlob_null := fun _ => false;
     gif_finished := fun _ => true;
     generateAsync_rejects := false;
     createObjectURL := fun _ => "blob:object" |}.

(** A browser whose canvas gives no blob for the rectangle [r]. *)
Definition browser_null_blob_for (r : Rect) : Browser :=
  {| imageRef_current := imageRef_current sample_browser;
     videoRef_current := videoRef_current sample_browser;
     window_GIF := true;
     window_JSZip := true;
     window_saveAs := true;
     saveAs_throws := false;
     toBlob_null := fun r' => bool_decide (r' = r);
     gif_finished := fun _ => true;
     generateAsync_rejects := false;
     createObjectURL := fun _ => "blob:object" |}.

(** A browser whose picture could not be decoded. *)
Definition browser_with_broken_picture : Browser :=
  {| imageRef_current := fun _ => Some broken_picture;
     videoRef_current := videoRef_current sample_browser;
     window_GIF := true;
     window_JSZip := true;
     window_saveAs := true;
     saveAs_throws := false;
     toBlob_null := fun _ => false;
     gif_finished := fun _ => true;
     generateAsync_rejects := false;
     createObjectURL := fun _ => "blob:object" |}.

(** A browser without [window.saveAs]. *)
Definition browser_without_saveAs : Browser :=
  {| imageRef_current := imageRef_current sample_browser;
     videoRef_current := videoRef_current sample_browser;
     window_GIF := true;
     window_JSZip := true;
     window_saveAs := false;
     saveAs_throws := false;
     toBlob_null := fun _ => false;
     gif_finished := fun _ => true;
     generateAsync_rejects := false;
     createObjectURL := fun _ => "blob:object" |}.

(** ** Settings as they are typed into the page

    The inputs of the settings step by a tenth of a second, and the
    window that [onVideoMetadata] sets ends at six seconds at most.  The
    definitions below serve to check, by running the loop, every window
    from [a/10] to [b/10] seconds within these six seconds, at the frame
    rates the page offers. *)


(** [P] holds of the [n] integers from [k] on. *)
Fixpoint all_from (n : nat) (k : Z) (P : Z -> bool) : bool :=
  match n with
  | O => true
  | S n' => P k && all_from n' (k + 1) P
  end.




(** [Math.min(6, Number(t))] for the decimal [t = n/10] is the double of
    the decimal capped at [6.0]. *)
Definition capped_at_six (n : Z) : bool :=
  PrimFloat.Leibniz.eqb (Math_min 6 (tenths n)) (tenths (Z.min 60 n)).

(** The double of the decimal [n/10] lies between 0 and 6 and is that
    decimal, up to [10^-12]. *)
Definition tenths_in_range (n : Z) : bool :=
  match Binary64.to_Q (tenths n) with
  | Some e =>
      Qle_bool 0 e && Qle_bool e 6
      && Qle_bool (Qabs (e - inject_Z n / 10)) (1 # 1000000000000)
  | None => false
  end.

(** A browser whose video, once the loop has reached slice [i], answers
    seek number [f0] of the clip only after six seconds. *)
Definition browser_slow_seek (i f0 : nat) : Browser :=
  {| imageRef_current := imageRef_current sample_browser;
     videoRef_current := fun j => if (j <? i)%nat then Some responsive_video
                                  else Some (video_slow_at f0);
     window_GIF := true;
     window_JSZip := true;
     window_saveAs := true;
     saveAs_throws := false;
     toBlob_null := fun _ => false;
     gif_finished := fun _ => true;
     generateAsync_rejects := false;
     createObjectURL := fun _ => "blob:object" |}.

(** A float specification that is a zero, an infinity or a finite number
    of sign [s], that is, anything but a NaN or a number of the other
    sign. *)
Inductive signed (s : bool) : spec_float -> Prop :=
| signed_zero : signed s (S754_zero s)
| signed_infinity : signed s (S754_infinity s)
| signed_finite m e : signed s (S754_finite s m e).


(** ** Geometry: lemmas *)

Lemma elem_of_pixels r p : p ∈ pixels r <-> covers r p.
Proof.
  unfold pixels, covers. destruct p as [px py]. simpl.
  rewrite list_elem_of_In, in_prod_iff, <- !list_elem_of_In, !elem_of_seqZ.
  tauto.
Qed.

Lemma NoDup_list_prod {A B} (l : list A) (k : list B) :
  NoDup l -> NoDup k -> NoDup (list_prod l k).
Proof.
  intros Hl Hk. induction Hl as [|a l Ha Hl IH]; simpl.
  - constructor.
  - apply NoDup_app. split; [|split].
    + apply NoDup_fmap_2; [|done]. intros b1 b2 Hb. congruence.
    + intros [a' b'] H1 H2. apply list_elem_of_fmap in H1 as (b & Hb & _).
      inversion Hb; subst. apply list_elem_of_In, in_prod_iff in H2 as [H2 _].
      apply Ha. by apply list_elem_of_In.
    + exact IH.
Qed.

Lemma NoDup_pixels r : NoDup (pixels r).
Proof. apply NoDup_list_prod; apply NoDup_seqZ. Qed.

Lemma length_pixels r : 0 <= sw r -> 0 <= sh r ->
  Z.of_nat (length (pixels r)) = area r.
Proof.
  intros Hw Hh. unfold pixels, area.
  rewrite length_prod, !length_seqZ. lia.
Qed.

Lemma row_col_inj i j : row i = row j -> col i = col j -> i = j.
Proof.
  unfold row, col. intros Hr Hc.
  rewrite (Nat.div_mod_eq i 3), (Nat.div_mod_eq j 3). congruence.
Qed.

Lemma partition_lookup mediaInfo i : (i < 9)%nat ->
  partition mediaInfo !! i = Some (slice_rect mediaInfo i).
Proof.
  intros Hi. unfold partition.
  rewrite list_lookup_fmap, lookup_seq_lt by lia. done.
Qed.

Lemma slice_rect_disjoint mediaInfo i j :
  0 < chunkW mediaInfo -> 0 < chunkH mediaInfo -> i <> j ->
  disjoint_rects (slice_rect mediaInfo i) (slice_rect mediaInfo j).
Proof.
  intros Hw Hh Hij [px py] [[Hx1 Hy1] [Hx2 Hy2]]. simpl in *.
  apply Hij, row_col_inj.
  - assert (Z.of_nat (row i) = Z.of_nat (row j)) by nia. lia.
  - assert (Z.of_nat (col i) = Z.of_nat (col j)) by nia. lia.
Qed.

Lemma remove_dups_NoDup {A} `{EqDecision A} (l : list A) :
  NoDup l -> remove_dups l = l.
Proof.
  induction 1 as [|a l Ha Hl IH]; simpl; [done|].
  destruct (decide_rel elem_of a l); [done|]. by rewrite IH.
Qed.

Lemma NoDup_concat_pixels (rs : list Rect) :
  (forall i j r1 r2, i <> j -> rs !! i = Some r1 -> rs !! j = Some r2 ->
     disjoint_rects r1 r2) ->
  NoDup (concat (pixels <$> rs)).
Proof.
  induction rs as [|r rs IH]; intros Hdisj; simpl; [constructor|].
  apply NoDup_app. split; [apply NoDup_pixels|]. split.
  - intros p Hp Hq. apply list_elem_of_In, in_concat in Hq as (ps & Hps & Hq).
    apply list_elem_of_In, list_elem_of_fmap in Hps as (r' & -> & Hr').
    apply list_elem_of_In in Hq.
    apply list_elem_of_lookup in Hr' as [j Hj].
    apply (Hdisj 0%nat (S j) r r' ltac:(lia) eq_refl Hj p).
    split; by apply elem_of_pixels.
  - apply IH. intros i j r1 r2 Hij H1 H2.
    apply (Hdisj (S i) (S j)); [lia|done..].
Qed.

Lemma length_concat_pixels (rs : list Rect) (a : Z) :
  Forall (fun r => area r = a /\ 0 <= sw r /\ 0 <= sh r) rs ->
  Z.of_nat (length (concat (pixels <$> rs))) = Z.of_nat (length rs) * a.
Proof.
  induction 1 as [|r rs (Ha & Hw & Hh) _ IH]; [simpl; lia|].
  rewrite fmap_cons. cbn [concat length].
  rewrite length_app, Nat2Z.inj_add, IH, length_pixels by done. lia.
Qed.

(** ** Geometry: the partition theorem *)

(** C1.  For a source of width [W >= 3] and height [H >= 3] the nine
    rectangles visited by the loop of [handleProcess] are, in row-major
    order, the cells of a 3 x 3 grid: rectangle [i] sits in row [i div 3]
    and column [i mod 3], is [floor(W/3)] wide and [floor(H/3)] high, and
    starts at [x = col * width], [y = row * height].  Two different
    rectangles share no pixel, and the number of pixels covered by their
    union is [9 * floor(W/3) * floor(H/3)]. *)
Theorem partition_nine_regions (W H : Z) :
  3 <= W -> 3 <= H ->
  let rs := partition (media W H) in
  length rs = 9%nat /\
  (forall i, (i < 9)%nat ->
     exists r, rs !! i = Some r /\
       row i = (i / 3)%nat /\ col i = (i mod 3)%nat /\
       sw r = W / 3 /\ sh r = H / 3 /\
       sx r = Z.of_nat (col i) * sw r /\ sy r = Z.of_nat (row i) * sh r) /\
  (forall i j r1 r2, i <> j -> rs !! i = Some r1 -> rs !! j = Some r2 ->
     disjoint_rects r1 r2) /\
  union_area rs = 9 * (W / 3) * (H / 3).
Proof.
  intros HW HH rs.
  assert (Hw : 0 < chunkW (media W H)).
  { unfold chunkW; simpl. apply Z.div_str_pos. lia. }
  assert (Hh : 0 < chunkH (media W H)).
  { unfold chunkH; simpl. apply Z.div_str_pos. lia. }
  assert (Hdisj : forall i j r1 r2, i <> j ->
            rs !! i = Some r1 -> rs !! j = Some r2 -> disjoint_rects r1 r2).
  { intros i j r1 r2 Hij H1 H2.
    assert (Hi : (i < 9)%nat) by (apply lookup_lt_Some in H1; exact H1).
    assert (Hj : (j < 9)%nat) by (apply lookup_lt_Some in H2; exact H2).
    subst rs. rewrite partition_lookup in H1, H2 by done.
    inversion H1; inversion H2; subst. by apply slice_rect_disjoint. }
  split; [done|]. split; [|split; [exact Hdisj|]].
  - intros i Hi. exists (slice_rect (media W H) i).
    split; [by apply partition_lookup|]. done.
  - unfold union_area, union_pixels.
    rewrite remove_dups_NoDup by (by apply NoDup_concat_pixels).
    rewrite (length_concat_pixels rs (W / 3 * (H / 3))).
    + change (length rs) with 9%nat. lia.
    + apply Forall_forall. intros r Hr.
      apply list_elem_of_lookup in Hr as [i Hi].
      assert (Hi9 : (i < 9)%nat) by (apply lookup_lt_Some in Hi; exact Hi).
      subst rs. rewrite partition_lookup in Hi by done.
      inversion Hi; subst. unfold area. cbn [slice_rect sw sh].
      unfold chunkW, chunkH in *. cbn [media width height] in *.
      split; [reflexivity|lia].
Qed.

Lemma partition_nine_regions_witness :
  3 <= 7 /\ 3 <= 10 /\
  union_area (partition (media 7 10)) = 9 * (7 / 3) * (10 / 3).
Proof.
  split; [lia|]. split; [lia|].
  apply (partition_nine_regions 7 10); lia.
Defined.

(** ** Effect lists and the React state *)

Lemma published_app es1 es2 :
  published (es1 ++ es2) = published es1 ++ published es2.
Proof. apply omap_app. Qed.

Lemma progress_values_app es1 es2 :
  progress_values (es1 ++ es2) = progress_values es1 ++ progress_values es2.
Proof. apply omap_app. Qed.

Lemma statuses_app es1 es2 :
  statuses (es1 ++ es2) = statuses es1 ++ statuses es2.
Proof. apply omap_app. Qed.

Lemma started_app es1 es2 :
  started (es1 ++ es2) = started es1 ++ started es2.
Proof. apply omap_app. Qed.

Lemma console_app es1 es2 :
  console (es1 ++ es2) = console es1 ++ console es2.
Proof. apply omap_app. Qed.

Lemma archive_ops_app es1 es2 :
  archive_ops (es1 ++ es2) = archive_ops es1 ++ archive_ops es2.
Proof. apply List.filter_app. Qed.

Lemma run_app st es1 es2 : run st (es1 ++ es2) = run (run st es1) es2.
Proof. apply foldl_app. Qed.

(** The [results] cell holds the last array handed to [setResults]. *)
Lemma results_run st es :
  results (run st es) = default (results st) (last (published es)).
Proof.
  revert st. induction es as [|e es IH]; intros st; [done|].
  change (run st (e :: es)) with (run (apply_effect st e) es).
  rewrite IH. destruct e; simpl; try done.
  rewrite last_cons. by destruct (last (published es)).
Qed.

(** ** The loop of [handleProcess] *)

Lemma prefix_filled_replicate : prefix_filled 0 (replicate 9 None).
Proof.
  split; [done|]. intros j Hj. split; [lia|]. intros _.
  by apply lookup_replicate_2.
Qed.

Lemma prefix_filled_insert k rs r :
  (k < 9)%nat -> prefix_filled k rs ->
  prefix_filled (S k) (<[k := Some r]> rs).
Proof.
  intros Hk [Hlen Hrs]. split; [by rewrite length_insert|].
  intros j Hj. destruct (decide (j = k)) as [->|Hne].
  - split; [|lia]. intros _. exists r.
    apply list_lookup_insert_eq. lia.
  - rewrite list_lookup_insert_ne by done. unfold filled.
    rewrite list_lookup_insert_ne by done.
    destruct (Hrs j Hj) as [H1 H2]. split; intros ?; [apply H1|apply H2]; lia.
Qed.

Section LoopFacts.
Variable slice : nat -> Promise SliceResult.

(** With [d] the number of arrays published by the loop: [d] slices
    resolved in a row, progress was set once for each of them, and the
    loop ended normally after all of them or at slice [i + d]. *)
Lemma for_loop_spec n i newResults :
  let es := (for_loop slice n i newResults).1 in
  let c := (for_loop slice n i newResults).2 in
  let d := length (published es) in
  let d' := (d + match c with Normal => 0 | _ => 1 end)%nat in
  (forall j, (j < d)%nat -> exists r, slice (i + j) = Resolved r) /\
  match c with
  | Normal => d = n
  | Throw m => (d < n)%nat /\ slice (i + d)%nat = Rejected m
  | Suspended => (d < n)%nat /\ slice (i + d)%nat = Pending
  end /\
  progress_values es = progress_after <$> seq i d /\
  started es = seq i d' /\
  statuses es = status_processing <$> seq i d' /\
  console es = [] /\
  archive_ops es = [].
Proof.
  revert i newResults. induction n as [|n IH]; intros i newResults.
  { cbn. split; [intros j; lia|done]. }
  cbn [for_loop]. destruct (slice i) as [result|m|] eqn:Hi.
  - specialize (IH (S i) (<[i:=Some result]> newResults)).
    destruct (for_loop slice n (S i) (<[i:=Some result]> newResults))
      as [es c]. cbn [fst snd] in *.
    destruct IH as (Hres & Hc & Hp & Hs & Ht & Hco & Ha).
    rewrite published_app, progress_values_app, started_app, statuses_app,
      console_app, archive_ops_app, Hp, Hs, Ht, Hco, Ha.
    set (d := length (published es)) in *.
    replace (length (published _ ++ published es)) with (S d) by done.
    split; [|split; [|repeat split; reflexivity]].
    + intros [|j] Hj; [rewrite Nat.add_0_r; eauto|].
      destruct (Hres j ltac:(lia)) as [r Hr]. exists r.
      by replace (i + S j)%nat with (S i + j)%nat by lia.
    + destruct c; [lia| |]; destruct Hc as [Hlt Hsl];
        (split; [lia|]);
        replace (i + S d)%nat with (S i + d)%nat by lia; exact Hsl.
  - cbn. rewrite Nat.add_0_r.
    split; [intros j; lia|]. split; [split; [lia|done]|done].
  - cbn. rewrite Nat.add_0_r.
    split; [intros j; lia|]. split; [split; [lia|done]|done].
Qed.

(** Two successive arrays differ by the write of one slot. *)
Lemma for_loop_chain n i newResults k a b :
  let P := newResults :: published (for_loop slice n i newResults).1 in
  P !! k = Some a -> P !! S k = Some b ->
  exists r, slice (i + k)%nat = Resolved r /\ b = <[(i + k)%nat := Some r]> a.
Proof.
  revert i newResults k. induction n as [|n IH]; intros i newResults k.
  { cbn. intros _ Hb. by destruct k. }
  cbn [for_loop]. destruct (slice i) as [result|m|] eqn:Hi;
    [|cbn; intros _ Hb; by destruct k..].
  specialize (IH (S i) (<[i:=Some result]> newResults)).
  destruct (for_loop slice n (S i) (<[i:=Some result]> newResults))
    as [es c]. cbn [fst snd] in *.
  rewrite published_app.
  change (published [_; _; _; _]) with [<[i:=Some result]> newResults].
  destruct k as [|k].
  - cbn. intros [= <-] [= <-]. rewrite Nat.add_0_r. eauto.
  - intros Ha Hb. destruct (IH k Ha Hb) as (r & Hr & ->).
    exists r. by replace (i + S k)%nat with (S i + k)%nat by lia.
Qed.

Lemma for_loop_prefix_filled n i newResults k rs :
  (n + i = 9)%nat -> prefix_filled i newResults ->
  (newResults :: published (for_loop slice n i newResults).1) !! k = Some rs ->
  prefix_filled (i + k) rs.
Proof.
  intros Hn Hnr. revert rs. induction k as [|k IH]; intros rs Hk.
  { cbn in Hk. injection Hk as <-. by rewrite Nat.add_0_r. }
  assert (Hlt : (k < length (published (for_loop slice n i newResults).1))%nat).
  { apply lookup_lt_Some in Hk. cbn in Hk. lia. }
  destruct (lookup_lt_is_Some_2
              (newResults :: published (for_loop slice n i newResults).1) k)
    as [a Ha]; [cbn; lia|].
  destruct (for_loop_chain n i newResults k a rs Ha Hk) as (r & _ & ->).
  pose proof (for_loop_spec n i newResults) as (_ & Hc & _).
  assert (Hd : (length (published (for_loop slice n i newResults).1) <= n)%nat).
  { destruct ((for_loop slice n i newResults).2); lia. }
  replace (i + S k)%nat with (S (i + k)) by lia.
  apply prefix_filled_insert; [lia|by apply IH].
Qed.
End LoopFacts.

(** ** [handleProcess]: what a run publishes *)

Lemma published_process slice :
  published (process slice) =
  replicate 9 None :: published (for_loop slice 9 0 (replicate 9 None)).1.
Proof.
  unfold process. rewrite !published_app.
  change (published [_; _; _]) with [replicate 9 (@None SliceResult)].
  destruct ((for_loop slice 9 0 (replicate 9 None)).2); cbn;
    by rewrite app_nil_r.
Qed.

Lemma published_not_ready rev B st :
  not_ready st = true -> published (handleProcess rev B st) = [].
Proof. unfold handleProcess. intros ->. by destruct rev. Qed.

Lemma published_handleProcess rev B st k rs :
  published (handleProcess rev B st) !! k = Some rs ->
  (k <= 9)%nat /\ prefix_filled k rs.
Proof.
  destruct (not_ready st) eqn:Hg.
  { by rewrite published_not_ready. }
  unfold handleProcess. rewrite Hg, published_process. intros Hk. split.
  - apply lookup_lt_Some in Hk. cbn [length] in Hk.
    pose proof (for_loop_spec (produce_slice rev B st) 9 0 (replicate 9 None))
      as (_ & Hc & _).
    destruct ((for_loop (produce_slice rev B st) 9 0 (replicate 9 None)).2);
      lia.
  - apply (for_loop_prefix_filled _ 9 0 _ k rs eq_refl
             prefix_filled_replicate Hk).
Qed.

(** C8.  During a run of [handleProcess] the result set obeys its
    invariant at every step.  The first array the run publishes has all
    nine slots empty; the [k]-th array published after it has exactly the
    slots [0 .. k-1] filled; each publication differs from the one before
    it by a write to the first empty slot and leaves every other slot as it
    was; and at every point of the run from the first publication on, the
    filled slots of the [results] cell are a prefix of [0 .. 8]. *)
Theorem resultset_filled_in_index_order rev B st :
  let es := handleProcess rev B st in
  let P := published es in
  head P = (if not_ready st then None else Some (replicate 9 None)) /\
  (forall k rs, P !! k = Some rs -> (k <= 9)%nat /\ prefix_filled k rs) /\
  (forall k a b, P !! k = Some a -> P !! S k = Some b ->
     a !! k = Some None /\
     (exists r, b = <[k := Some r]> a) /\
     (forall j, j <> k -> b !! j = a !! j)) /\
  (forall es1 es2, es = es1 ++ es2 -> published es1 <> [] ->
     exists k, (k <= 9)%nat /\ prefix_filled k (results (run st es1))).
Proof.
  intros es P. split; [|split; [|split]].
  - subst P es. destruct (not_ready st) eqn:Hg.
    + by rewrite published_not_ready.
    + unfold handleProcess. by rewrite Hg, published_process.
  - apply published_handleProcess.
  - intros k a b Ha Hb.
    destruct (published_handleProcess rev B st _ _ Ha) as [_ [_ Hpa]].
    destruct (published_handleProcess rev B st _ _ Hb) as [Hk9 _].
    assert (Hak : a !! k = Some None) by (apply (Hpa k); lia).
    split; [done|].
    subst P es. destruct (not_ready st) eqn:Hg.
    { by rewrite published_not_ready in Ha. }
    unfold handleProcess in Ha, Hb. rewrite Hg, published_process in Ha, Hb.
    destruct (for_loop_chain _ 9 0 _ k a b Ha Hb) as (r & _ & ->).
    split; [by exists r|].
    intros j Hj. by apply list_lookup_insert_ne.
  - intros es1 es2 Hes Hne.
    rewrite results_run.
    destruct (last (published es1)) as [rs|] eqn:Hl;
      [|by apply last_None in Hl].
    exists (pred (length (published es1))).
    apply (published_handleProcess rev B st). fold es.
    rewrite Hes, published_app.
    rewrite lookup_app_l by (destruct (published es1); [done|cbn; lia]).
    by rewrite <- last_lookup.
Qed.

(** ** [handleProcess]: a run in which a slice fails *)

Section Failure.
Variable slice : nat -> Promise SliceResult.
Variables (i : nat) (m : string).
Hypothesis Hi : (i < 9)%nat.
Hypothesis Hbefore : forall j, (j < i)%nat -> exists r, slice j = Resolved r.
Hypothesis Hfail : slice i = Rejected m.

Lemma for_loop_first_failure :
  let body := for_loop slice 9 0 (replicate 9 None) in
  body.2 = Throw m /\ length (published body.1) = i.
Proof.
  intros body.
  pose proof (for_loop_spec slice 9 0 (replicate 9 None))
    as (Hres & Hc & _). fold body in Hres, Hc. cbn [Nat.add] in *.
  set (d := length (published body.1)) in *.
  assert (Hdi : d = i).
  { destruct (Nat.lt_trichotomy d i) as [Hlt|[Heq|Hgt]]; [|done|].
    - destruct (Hbefore d Hlt) as [r Hr].
      destruct (body.2); [lia|destruct Hc; congruence..].
    - destruct (Hres i Hgt) as [r Hr]. congruence. }
  split; [|done]. rewrite Hdi in Hc.
  destruct (body.2) as [|m'|]; [lia| |]; destruct Hc as [_ Hc];
    congruence.
Qed.

Lemma process_first_failure st :
  let es := process slice in
  started es = seq 0 (S i) /\
  console es = [m] /\
  archive_ops es = [] /\
  status (run st es) = status_failed m /\
  isProcessing (run st es) = false /\
  prefix_filled i (results (run st es)).
Proof.
  intros es.
  pose proof (for_loop_spec slice 9 0 (replicate 9 None))
    as (_ & _ & _ & Hs & _ & Hco & Ha).
  destruct for_loop_first_failure as [Hc Hd].
  assert (Hes : es = ([ setIsProcessing true; setProgress 0%Q;
                        setResults (replicate 9 None) ]
                      ++ (for_loop slice 9 0 (replicate 9 None)).1)
                     ++ [ console_error m; setStatus (status_failed m);
                          setIsProcessing false ]).
  { subst es. unfold process. rewrite Hc. by rewrite app_assoc. }
  rewrite Hc, Hd in Hs.
  split; [|split; [|split; [|split; [|split]]]].
  - rewrite Hes, !started_app, Hs. cbn. by rewrite Nat.add_1_r, app_nil_r.
  - by rewrite Hes, !console_app, Hco.
  - by rewrite Hes, !archive_ops_app, Ha.
  - by rewrite Hes, run_app.
  - by rewrite Hes, run_app.
  - rewrite results_run. subst es. rewrite published_process.
    rewrite last_lookup. cbn [length pred]. rewrite Hd.
    destruct (lookup_lt_is_Some_2
      (replicate 9 None :: published (for_loop slice 9 0 (replicate 9 None)).1) i)
      as [rs Hrs]; [cbn [length]; lia|].
    rewrite Hrs. cbn [default].
    apply (for_loop_prefix_filled slice 9 0 _ i rs eq_refl
             prefix_filled_replicate Hrs).
Qed.
End Failure.

Lemma prefix_filled_incomplete k rs :
  (k < 9)%nat -> prefix_filled k rs -> ~ complete rs.
Proof.
  intros Hk [_ Hrs] [_ Hc]. destruct (Hc k Hk) as [r Hr].
  destruct (Hrs k Hk) as [_ Hn]. rewrite Hn in Hr by lia. discriminate.
Qed.

Lemma handleDownloadAll_incomplete rev B st k :
  (k < 9)%nat -> prefix_filled k (results st) ->
  handleDownloadAll rev B st = [].
Proof.
  intros Hk [_ Hrs]. unfold handleDownloadAll.
  destruct (existsb is_null (results st)) eqn:He; [done|].
  assert (Hex : existsb is_null (results st) = true); [|congruence].
  apply existsb_exists. exists None. split; [|done].
  apply list_elem_of_In, list_elem_of_lookup. exists k.
  apply (Hrs k Hk). lia.
Qed.

(** C3 (amended).  When the production of slice [i] fails after the
    slices before it were produced, the run stops there: the slices
    [0 .. i] are the only ones started, the result set keeps exactly the
    slots [0 .. i-1] and so is not complete, the status line shows the
    failure with the message of its cause (or a stock text when the
    message is empty), the cause is printed on the console, processing is
    switched off, and neither the run nor a later [handleDownloadAll]
    touches the archive builder.  The slice index is not part of what is
    reported. *)
Theorem slice_failure_aborts_run rev B st i m :
  not_ready st = false ->
  (i < 9)%nat ->
  (forall j, (j < i)%nat -> exists r, produce_slice rev B st j = Resolved r) ->
  produce_slice rev B st i = Rejected m ->
  let es := handleProcess rev B st in
  let st' := run st es in
  started es = seq 0 (S i) /\
  prefix_filled i (results st') /\
  ~ complete (results st') /\
  failure_report st es = ("制作失败: " +:+ or_else m "未知错误", [m]) /\
  isProcessing st' = false /\
  archive_ops es = [] /\
  (forall B', handleDownloadAll rev B' st' = []).
Proof.
  intros Hg Hi Hbefore Hfail es st'.
  assert (Hes : es = process (produce_slice rev B st)).
  { subst es. unfold handleProcess. by rewrite Hg. }
  destruct (process_first_failure _ i m Hi Hbefore Hfail st)
    as (Hs & Hco & Ha & Hst & Hp & Hr).
  rewrite <- Hes in *. fold st' in Hst, Hp, Hr.
  split; [done|]. split; [done|].
  split; [by apply (prefix_filled_incomplete i)|].
  split; [unfold failure_report; fold st'; by rewrite Hst, Hco|].
  split; [done|]. split; [done|].
  intros B'. by apply (handleDownloadAll_incomplete rev B' st' i).
Qed.

Lemma slice_failure_aborts_run_witness :
  let es := handleProcess Rev1 (browser_stalling_at 3) sample_video_state in
  started es = [0; 1; 2; 3]%nat /\
  failure_report sample_video_state es
    = ("制作失败: 视频定位超时", ["视频定位超时"]).
Proof.
  destruct (slice_failure_aborts_run Rev1 (browser_stalling_at 3)
              sample_video_state 3 "视频定位超时")
    as (Hs & _ & _ & Hrep & _).
  - reflexivity.
  - lia.
  - intros j Hj.
    destruct j as [|[|[|j]]]; [eexists; vm_compute; reflexivity..|lia].
  - vm_compute. reflexivity.
  - split; [exact Hs|exact Hrep].
Defined.

(** C3, as stated, fails on the code: two runs whose failures have the
    same cause, one at slice 0 and one at slice 3, end with the same status
    line and the same console output, so the report does not tell which
    slice failed. *)
Lemma failure_report_omits_slice_index :
  let es0 := handleProcess Rev1 (browser_stalling_at 0) sample_video_state in
  let es3 := handleProcess Rev1 (browser_stalling_at 3) sample_video_state in
  started es0 = [0]%nat /\
  started es3 = [0; 1; 2; 3]%nat /\
  failure_report sample_video_state es0
    = ("制作失败: 视频定位超时", ["视频定位超时"]) /\
  failure_report sample_video_state es3
    = ("制作失败: 视频定位超时", ["视频定位超时"]) /\
  (forall index_of : string * list string -> nat,
     ~ (index_of (failure_report sample_video_state es0) = 0%nat /\
        index_of (failure_report sample_video_state es3) = 3%nat)).
Proof.
  intros es0 es3.
  assert (H0 : failure_report sample_video_state es0
               = ("制作失败: 视频定位超时", ["视频定位超时"]))
    by (vm_compute; reflexivity).
  assert (H3 : failure_report sample_video_state es3
               = ("制作失败: 视频定位超时", ["视频定位超时"]))
    by (vm_compute; reflexivity).
  split; [vm_compute; reflexivity|]. split; [vm_compute; reflexivity|].
  split; [exact H0|]. split; [exact H3|].
  intros index_of [Ha Hb]. rewrite H0 in Ha. rewrite H3 in Hb. congruence.
Qed.

(** ** [handleProcess]: the guard *)

(** C10.  Started with no file selected, or in video mode before the GIF
    worker is loaded, [handleProcess] returns at its guard: it begins no
    slice, calls neither [setResults] nor [setProgress], and leaves the
    result set and the progress value as they were.  (The second revision
    sets a status text there, and nothing else.) *)
Theorem handleProcess_not_ready_is_noop rev B st :
  file st = None \/ (mode st = VIDEO /\ workerBlobUrl st = None) ->
  let es := handleProcess rev B st in
  es = match rev with Rev1 => [] | Rev2 => [ setStatus "资源未准备好" ] end /\
  started es = [] /\
  published es = [] /\
  progress_values es = [] /\
  results (run st es) = results st /\
  progress (run st es) = progress st /\
  isProcessing (run st es) = isProcessing st.
Proof.
  intros Hg es.
  assert (Hn : not_ready st = true).
  { unfold not_ready. destruct Hg as [->|[-> ->]]; [done|].
    cbn. by rewrite orb_true_r. }
  subst es. unfold handleProcess. rewrite Hn. by destruct rev.
Qed.

Lemma handleProcess_not_ready_is_noop_witness :
  let st := initial_state in
  file st = None /\
  results (run st (handleProcess Rev2 sample_browser st)) = replicate 9 None /\
  progress (run st (handleProcess Rev2 sample_browser st)) = 0%Q.
Proof.
  split; [reflexivity|].
  destruct (handleProcess_not_ready_is_noop Rev2 sample_browser initial_state)
    as (_ & _ & _ & _ & Hr & Hp & _).
  - left. reflexivity.
  - split; [exact Hr|exact Hp].
Defined.

(** ** [handleFileChange] *)

(** C9.  Whatever the state before, selecting a file empties all nine
    slots of the result set and puts the progress value back to 0. *)
Theorem file_selection_resets_results_and_progress B st f :
  let st' := run st (handleFileChange B st (Some f)) in
  results st' = replicate 9 None /\
  length (results st') = 9%nat /\
  (forall j, (j < 9)%nat -> results st' !! j = Some None) /\
  progress st' = 0%Q.
Proof.
  intros st'. subst st'. unfold handleFileChange.
  rewrite run_app.
  set (st1 := run st _).
  assert (Hres : results (run st1
            [ setResults (replicate 9 None); setProgress 0%Q; setStatus "";
              setPreviewUrl (Some (createObjectURL B (FileBlob f)));
              setFile (Some f);
              if String.prefix "image/" (type f) then setMode IMAGE
              else setMode VIDEO ]) = replicate 9 None
          /\ progress (run st1
            [ setResults (replicate 9 None); setProgress 0%Q; setStatus "";
              setPreviewUrl (Some (createObjectURL B (FileBlob f)));
              setFile (Some f);
              if String.prefix "image/" (type f) then setMode IMAGE
              else setMode VIDEO ]) = 0%Q).
  { by destruct (String.prefix "image/" (type f)). }
  destruct Hres as [-> ->]. split; [done|]. split; [done|]. split; [|done].
  intros j Hj. by apply lookup_replicate_2.
Qed.

Lemma handleFileChange_not_image B st f :
  String.prefix "image/" (type f) = false ->
  let es := handleFileChange B st (Some f) in
  let st' := run st es in
  file st' = Some f /\
  previewUrl st' = Some (createObjectURL B (FileBlob f)) /\
  mode st' = VIDEO /\
  status st' = "" /\
  isProcessing st' = isProcessing st.
Proof.
  intros Hf es st'. subst st' es. unfold handleFileChange.
  rewrite Hf, run_app. by destruct (truthy_string (previewUrl st)).
Qed.

(** C5 (amended).  [handleFileChange] rejects nothing.  A file whose
    content type does not start with [image/] (a video, or any other
    type) becomes the selected file, gets a preview URL, and switches the
    component to video mode; the status text is cleared, not set to an
    error; the result set and the progress value are reset; and no slice
    production begins. *)
Theorem non_image_file_is_taken_as_video B st f :
  String.prefix "image/" (type f) = false ->
  let es := handleFileChange B st (Some f) in
  let st' := run st es in
  file st' = Some f /\
  previewUrl st' = Some (createObjectURL B (FileBlob f)) /\
  mode st' = VIDEO /\
  statuses es = [""] /\
  status st' = "" /\
  results st' = replicate 9 None /\
  progress st' = 0%Q /\
  started es = [] /\
  isProcessing st' = isProcessing st.
Proof.
  intros Hf es st'.
  destruct (handleFileChange_not_image B st f Hf) as (H1 & H2 & H3 & H4 & H5).
  repeat (split; [done|]). subst st' es. unfold handleFileChange.
  rewrite Hf, run_app. by destruct (truthy_string (previewUrl st)).
Qed.

Lemma non_image_file_is_taken_as_video_witness :
  String.prefix "image/" (type sample_pdf) = false /\
  mode (run sample_image_state
          (handleFileChange sample_browser sample_image_state (Some sample_pdf)))
  = VIDEO.
Proof.
  split; [reflexivity|].
  apply (non_image_file_is_taken_as_video sample_browser sample_image_state
           sample_pdf).
  reflexivity.
Defined.

(** C5, as stated, fails on the code: a PDF selected while a picture is
    loaded is neither an image nor a video, yet the handler shows no error
    (the only status text it sets is the empty one) and it replaces the
    file, the preview and the mode. *)
Lemma unsupported_file_is_not_rejected :
  let st := sample_image_state in
  let es := handleFileChange sample_browser st (Some sample_pdf) in
  let st' := run st es in
  String.prefix "image/" (type sample_pdf) = false /\
  String.prefix "video/" (type sample_pdf) = false /\
  statuses es = [""] /\
  file st = Some {| name := "photo.png"; type := "image/png" |} /\
  file st' = Some sample_pdf /\
  previewUrl st' = Some "blob:object" /\
  mode st = IMAGE /\
  mode st' = VIDEO.
Proof. vm_compute. repeat split. Qed.

(** ** [handleDownloadAll] *)

Lemma complete_nine rs :
  complete rs ->
  exists r0 r1 r2 r3 r4 r5 r6 r7 r8,
    rs = [Some r0; Some r1; Some r2; Some r3; Some r4;
          Some r5; Some r6; Some r7; Some r8].
Proof.
  intros [Hlen Hf].
  destruct rs as [|o0 [|o1 [|o2 [|o3 [|o4 [|o5 [|o6 [|o7 [|o8 [|o9 rs]]]]]]]]]];
    try discriminate.
  destruct (Hf 0%nat ltac:(lia)) as [r0 [= ->]].
  destruct (Hf 1%nat ltac:(lia)) as [r1 [= ->]].
  destruct (Hf 2%nat ltac:(lia)) as [r2 [= ->]].
  destruct (Hf 3%nat ltac:(lia)) as [r3 [= ->]].
  destruct (Hf 4%nat ltac:(lia)) as [r4 [= ->]].
  destruct (Hf 5%nat ltac:(lia)) as [r5 [= ->]].
  destruct (Hf 6%nat ltac:(lia)) as [r6 [= ->]].
  destruct (Hf 7%nat ltac:(lia)) as [r7 [= ->]].
  destruct (Hf 8%nat ltac:(lia)) as [r8 [= ->]].
  by exists r0, r1, r2, r3, r4, r5, r6, r7, r8.
Qed.

(** C7.  Run on a complete result set, [handleDownloadAll] builds an
    archive with one folder, named [9_grid_images] in image mode and
    [9_grid_gifs] in video mode, holding exactly nine files: slot [i] of
    the result set is stored as [slice_<i+1>.png] in image mode and as
    [slice_<i+1>.gif] in video mode.  When the archive is generated and
    [window.saveAs] is there, it is this content that [saveAs] is called
    with, under the folder's name with [.zip]. *)
Theorem archive_has_nine_named_slices rev B st :
  complete (results st) ->
  window_JSZip B = true ->
  let es := handleDownloadAll rev B st in
  let ops := archive_ops es in
  let content := archive_content es in
  ops !! 0%nat = Some new_JSZip /\
  omap (fun e => match e with zip_folder n => Some n | _ => None end) ops
    = [ match mode st with IMAGE => "9_grid_images" | VIDEO => "9_grid_gifs" end ] /\
  content.*1 =
    match mode st with
    | IMAGE => [ "9_grid_images/slice_1.png"; "9_grid_images/slice_2.png";
                 "9_grid_images/slice_3.png"; "9_grid_images/slice_4.png";
                 "9_grid_images/slice_5.png"; "9_grid_images/slice_6.png";
                 "9_grid_images/slice_7.png"; "9_grid_images/slice_8.png";
                 "9_grid_images/slice_9.png" ]
    | VIDEO => [ "9_grid_gifs/slice_1.gif"; "9_grid_gifs/slice_2.gif";
                 "9_grid_gifs/slice_3.gif"; "9_grid_gifs/slice_4.gif";
                 "9_grid_gifs/slice_5.gif"; "9_grid_gifs/slice_6.gif";
                 "9_grid_gifs/slice_7.gif"; "9_grid_gifs/slice_8.gif";
                 "9_grid_gifs/slice_9.gif" ]
    end /\
  Some <$> content.*2 = fmap blob <$> results st /\
  (if generateAsync_rejects B || negb (window_saveAs B) then
     forall c n, saveAs c n ∉ es
   else
     last ops = Some (saveAs content
       match mode st with
       | IMAGE => "9_grid_images.zip" | VIDEO => "9_grid_gifs.zip" end)).
Proof.
  intros Hc Hz es ops content. subst content ops es.
  destruct (complete_nine _ Hc)
    as (r0 & r1 & r2 & r3 & r4 & r5 & r6 & r7 & r8 & Hrs).
  unfold handleDownloadAll. rewrite Hrs, Hz.
  cbn [existsb is_null truthy negb orb].
  destruct (mode st), (generateAsync_rejects B), (window_saveAs B),
    (saveAs_throws B), rev;
    (split; [reflexivity|]); (split; [reflexivity|]);
    (split; [vm_compute; reflexivity|]); (split; [reflexivity|]);
    try reflexivity;
    intros c n Hin; repeat (apply elem_of_cons in Hin as [Hin|Hin];
                            [discriminate Hin|]);
    by apply elem_of_nil in Hin.
Qed.

Lemma archive_has_nine_named_slices_witness :
  let st := run sample_image_state
              (handleProcess Rev1 sample_browser sample_image_state) in
  complete (results st) /\
  (archive_content (handleDownloadAll Rev1 sample_browser st)).*1 =
    [ "9_grid_images/slice_1.png"; "9_grid_images/slice_2.png";
      "9_grid_images/slice_3.png"; "9_grid_images/slice_4.png";
      "9_grid_images/slice_5.png"; "9_grid_images/slice_6.png";
      "9_grid_images/slice_7.png"; "9_grid_images/slice_8.png";
      "9_grid_images/slice_9.png" ].
Proof.
  assert (Hc : complete (results (run sample_image_state
              (handleProcess Rev1 sample_browser sample_image_state)))).
  { split; [reflexivity|]. intros j Hj.
    do 9 (destruct j as [|j]; [eexists; vm_compute; reflexivity|]). lia. }
  split; [exact Hc|].
  destruct (archive_has_nine_named_slices Rev1 sample_browser _ Hc eq_refl)
    as (_ & _ & Hn & _).
  exact Hn.
Defined.

(** ** [handleProcess]: progress *)

Lemma progress_after_value i :
  (progress_after i == inject_Z (Z.of_nat i + 1) * 100 / 9)%Q.
Proof. unfold progress_after, Qeq. cbn. lia. Qed.

Lemma progress_after_bounds i :
  (i < 9)%nat -> (0 < progress_after i)%Q /\ (progress_after i <= 100)%Q.
Proof. intros Hi. unfold progress_after, Qlt, Qle. cbn. lia. Qed.

Lemma progress_after_mono i j :
  (i < j)%nat -> (progress_after i < progress_after j)%Q.
Proof. intros Hij. unfold progress_after, Qlt. cbn. lia. Qed.

Lemma progress_after_last : (progress_after 8 == 100)%Q.
Proof. reflexivity. Qed.

Lemma progress_values_process slice :
  progress_values (process slice) =
  0%Q :: (progress_after <$>
            seq 0 (length (published (for_loop slice 9 0 (replicate 9 None)).1))).
Proof.
  pose proof (for_loop_spec slice 9 0 (replicate 9 None)) as (_ & _ & Hp & _).
  unfold process. rewrite !progress_values_app, Hp.
  change (progress_values [_; _; _]) with [0%Q].
  destruct ((for_loop slice 9 0 (replicate 9 None)).2); cbn;
    by rewrite app_nil_r.
Qed.

(** C4 (amended).  A run sets the progress value to 0 when it starts and
    then once for each slice that completes, in order.  The value set
    after slice [i] is the fraction [(i+1)/9*100] itself, without
    rounding; it lies between 0 and 100, equals 100 after the ninth slice,
    and the values set in the course of a run increase strictly.  Computed
    on doubles the nine values are within rounding of these fractions,
    increase strictly from above 0, and the ninth is exactly 100. *)
Theorem progress_is_the_unrounded_fraction rev B st :
  let es := handleProcess rev B st in
  let pv := progress_values es in
  let d := pred (length (published es)) in
  pv = (if not_ready st then [] else 0%Q :: (progress_after <$> seq 0 d)) /\
  (d <= 9)%nat /\
  (forall j, (j < d)%nat -> exists r, produce_slice rev B st j = Resolved r) /\
  (forall i p, pv !! S i = Some p ->
     (i < 9)%nat /\
     (p == inject_Z (Z.of_nat i + 1) * 100 / 9)%Q /\
     (0 < p)%Q /\ (p <= 100)%Q) /\
  (forall p, pv !! 9%nat = Some p -> (p == 100)%Q) /\
  (forall a b p q, (a < b)%nat -> pv !! a = Some p -> pv !! b = Some q ->
     (p < q)%Q) /\
  (forall i, (i < 9)%nat ->
     Binary64.within_rounding (Binary64.progress_after i) (progress_after i)
     = true) /\
  (forall i, (i < 8)%nat ->
     (0 <? Binary64.progress_after i)%float = true /\
     (Binary64.progress_after i <? Binary64.progress_after (S i))%float
     = true) /\
  Binary64.progress_after 8 = 100%float.
Proof.
  intros es pv d.
  assert (Hpv : pv = (if not_ready st then []
                      else 0%Q :: (progress_after <$> seq 0 d)) /\
                (d <= 9)%nat /\
                (forall j, (j < d)%nat ->
                   exists r, produce_slice rev B st j = Resolved r)).
  { subst pv d es. unfold handleProcess.
    destruct (not_ready st) eqn:Hg.
    { destruct rev; (split; [done|]); (split; [cbn; lia|]); cbn; intros j; lia. }
    rewrite progress_values_process, published_process. cbn [length pred].
    pose proof (for_loop_spec (produce_slice rev B st) 9 0 (replicate 9 None))
      as (Hres & Hc & _).
    split; [done|]. split; [|exact Hres].
    destruct ((for_loop (produce_slice rev B st) 9 0 (replicate 9 None)).2);
      lia. }
  destruct Hpv as (Hpv & Hd & Hres).
  assert (Hlk : forall i p, pv !! S i = Some p ->
                  (i < d)%nat /\ p = progress_after i).
  { intros i p. rewrite Hpv. destruct (not_ready st); [done|].
    rewrite lookup_cons_ne_0 by done. cbn [Nat.pred].
    rewrite list_lookup_fmap. intros Hp.
    destruct (seq 0 d !! i) as [k|] eqn:Hk; [|done].
    apply lookup_seq in Hk as [-> Hk]. by injection Hp as <-. }
  split; [done|]. split; [done|]. split; [done|].
  split; [|split; [|split; [|split; [|split]]]].
  - intros i p Hp. destruct (Hlk i p Hp) as [Hi ->].
    split; [lia|]. split; [apply progress_after_value|].
    apply progress_after_bounds. lia.
  - intros p Hp. destruct (Hlk 8%nat p Hp) as [_ ->].
    apply progress_after_last.
  - intros a b p q Hab Ha Hb. destruct b as [|b]; [lia|].
    destruct (Hlk b q Hb) as [Hbd ->].
    destruct a as [|a].
    + assert (p = 0%Q) as ->.
      { rewrite Hpv in Ha. destruct (not_ready st); [done|]. by injection Ha. }
      apply progress_after_bounds. lia.
    + destruct (Hlk a p Ha) as [_ ->]. apply progress_after_mono. lia.
  - intros i Hi. do 9 (destruct i as [|i]; [vm_compute; reflexivity|]). lia.
  - intros i Hi.
    do 8 (destruct i as [|i]; [split; vm_compute; reflexivity|]). lia.
  - vm_compute. reflexivity.
Qed.

(** C4, as stated, fails on the code: in a run that completes all nine
    slices the value set after slice 0 is [100/9], which is not the integer
    11 that rounding it would give; nor is it on doubles. *)
Lemma progress_after_first_slice_is_not_rounded :
  let es := handleProcess Rev1 sample_browser sample_image_state in
  started es = [0; 1; 2; 3; 4; 5; 6; 7; 8]%nat /\
  progress_values es !! 1%nat = Some (progress_after 0) /\
  Qred (progress_after 0) = (100 # 9)%Q /\
  Math_round (progress_after 0) = 11 /\
  ~ (progress_after 0 == inject_Z (Math_round (progress_after 0)))%Q /\
  Binary64.round (Binary64.progress_after 0) = Some 11 /\
  (Binary64.progress_after 0 =? 11)%float = false.
Proof.
  repeat split; try reflexivity. intros H. vm_compute in H. discriminate H.
Qed.

(** ** Doubles: NaN, zero and the comparisons *)

Lemma shr_1_nonneg mrs : 0 <= shr_m mrs -> 0 <= shr_m (shr_1 mrs).
Proof.
  destruct mrs as [m r s0]. destruct m as [|p|p]; cbn; [lia| |lia].
  intros _. destruct p; cbn; lia.
Qed.

Lemma iter_pos_shr_1_nonneg p mrs :
  0 <= shr_m mrs -> 0 <= shr_m (SpecFloat.iter_pos shr_1 p mrs).
Proof.
  revert mrs. induction p as [p IH|p IH|]; intros mrs Hm; cbn.
  - apply IH, IH, shr_1_nonneg, Hm.
  - apply IH, IH, Hm.
  - apply shr_1_nonneg, Hm.
Qed.

Lemma shr_fexp_nonneg m e l :
  0 <= m -> 0 <= shr_m (shr_fexp prec emax m e l).1.
Proof.
  intros Hm. unfold shr_fexp, shr.
  assert (H0 : 0 <= shr_m (shr_record_of_loc m l)).
  { destruct l as [|[]]; exact Hm. }
  destruct (fexp prec emax (Zdigits2 m + e) - e) as [|p|p]; cbn [fst];
    [done| |done].
  by apply iter_pos_shr_1_nonneg.
Qed.

Lemma binary_round_aux_not_nan sx m e l :
  0 <= m -> binary_round_aux prec emax sx m e l <> S754_nan.
Proof.
  intros Hm. unfold binary_round_aux.
  pose proof (shr_fexp_nonneg m e l Hm) as H1.
  destruct (shr_fexp prec emax m e l) as [mrs' e'] eqn:E1. cbn [fst] in H1.
  assert (H2 : 0 <= round_nearest_even (shr_m mrs') (loc_of_shr_record mrs')).
  { unfold round_nearest_even.
    destruct (loc_of_shr_record mrs') as [|[]]; [lia| |lia|lia].
    destruct (Z.even (shr_m mrs')); lia. }
  pose proof (shr_fexp_nonneg _ e' loc_Exact H2) as H3.
  destruct (shr_fexp prec emax _ e' loc_Exact) as [mrs'' e''] eqn:E2.
  cbn [fst] in H3.
  destruct (shr_m mrs'') as [|p|p]; [done| |lia].
  by destruct (e'' <=? emax - prec).
Qed.

(** A rounded non-negative mantissa gives a zero, a finite number or an
    infinity of the sign asked for. *)
Lemma binary_round_aux_signed sx m e l :
  0 <= m -> signed sx (binary_round_aux prec emax sx m e l).
Proof.
  intros Hm. unfold binary_round_aux.
  pose proof (shr_fexp_nonneg m e l Hm) as H1.
  destruct (shr_fexp prec emax m e l) as [mrs' e'] eqn:E1. cbn [fst] in H1.
  assert (H2 : 0 <= round_nearest_even (shr_m mrs') (loc_of_shr_record mrs')).
  { unfold round_nearest_even.
    destruct (loc_of_shr_record mrs') as [|[]]; [lia| |lia|lia].
    destruct (Z.even (shr_m mrs')); lia. }
  pose proof (shr_fexp_nonneg _ e' loc_Exact H2) as H3.
  destruct (shr_fexp prec emax _ e' loc_Exact) as [mrs'' e''] eqn:E2.
  cbn [fst] in H3.
  destruct (shr_m mrs'') as [|p|p]; [constructor| |lia].
  destruct (e'' <=? emax - prec); constructor.
Qed.


Lemma is_nan_spec x : PrimFloat.is_nan x = true <-> Prim2SF x = S754_nan.
Proof.
  unfold PrimFloat.is_nan. rewrite FloatAxioms.eqb_spec. unfold SFeqb, SFcompare.
  destruct (Prim2SF x) as [s|s| |s m e]; cbn.
  - done.
  - by destruct s.
  - done.
  - rewrite Z.compare_refl, Pos.compare_cont_refl. by destruct s.
Qed.

Lemma is_nan_false x : PrimFloat.is_nan x = false <-> Prim2SF x <> S754_nan.
Proof.
  rewrite <- is_nan_spec. by destruct (PrimFloat.is_nan x).
Qed.

(** A double above [+0]: a positive finite number or plus infinity. *)
Lemma positive_spec x :
  (0 <? x)%float = true <->
  Prim2SF x = S754_infinity false \/ exists m e, Prim2SF x = S754_finite false m e.
Proof.
  rewrite FloatAxioms.ltb_spec.
  change (Prim2SF 0) with (S754_zero false).
  unfold SFltb, SFcompare.
  destruct (Prim2SF x) as [s|s| |s m e]; cbn.
  - split; [done|]. intros [H|(m & e & H)]; discriminate.
  - destruct s; split; try done; [|by left].
    intros [H|(m & e & H)]; discriminate.
  - split; [done|]. intros [H|(m & e & H)]; discriminate.
  - destruct s; split; try done; [|eauto].
    intros [H|(m' & e' & H)]; discriminate.
Qed.



(** [0 + x] is [x] for [x] above zero. *)
Lemma zero_add x : (0 <? x)%float = true -> (0 + x)%float = x.
Proof.
  intros Hx. apply Prim2SF_inj. rewrite add_spec.
  change (Prim2SF 0) with (S754_zero false).
  apply positive_spec in Hx as [->|(m & e & ->)]; reflexivity.
Qed.


Lemma SFdiv_core_binary_nonneg m1 e1 m2 e2 :
  0 <= m1 -> 0 < m2 -> 0 <= (SFdiv_core_binary prec emax m1 e1 m2 e2).1.1.
Proof.
  intros H1 H2. unfold SFdiv_core_binary.
  set (m' := match _ - _ - _ with Z.pos _ => _ | 0 => _ | Z.neg _ => _ end).
  assert (H3 : 0 <= m').
  { subst m'. destruct (_ - _ - _) as [|p|p]; [lia| |lia].
    by apply Z.shiftl_nonneg. }
  pose proof (Z_div_mod m' m2 ltac:(lia)) as Hdm.
  destruct (Z.div_eucl m' m2) as [q r]. cbn [fst]. nia.
Qed.


Lemma one_div_positive_inv x :
  (0 <? 1 / x)%float = true ->
  Prim2SF x = S754_zero false \/ exists m e, Prim2SF x = S754_finite false m e.
Proof.
  intros H. apply positive_spec in H. rewrite div_spec in H.
  change (Prim2SF 1) with (S754_finite false 4503599627370496 (-52)) in H.
  unfold SF64div, SFdiv in H.
  destruct (Prim2SF x) as [s|s| |s m e].
  - destruct s; [|by left]. destruct H as [H|(m & e & H)]; discriminate.
  - destruct H as [H|(m & e & H)]; discriminate.
  - destruct H as [H|(m & e & H)]; discriminate.
  - destruct s; [|eauto]. exfalso.
    pose proof (SFdiv_core_binary_nonneg 4503599627370496 (-52) (Z.pos m) e
                  ltac:(lia) ltac:(lia)) as Hq.
    destruct (SFdiv_core_binary prec emax 4503599627370496 (-52) (Z.pos m) e)
      as [[mz ez] lz].
    assert (Hs : signed true (binary_round_aux prec emax (xorb false true)
                                mz ez lz))
      by (by apply binary_round_aux_signed).
    destruct Hs; destruct H as [H|(m'' & e'' & H)]; discriminate.
Qed.

(** With a positive step the tenth of a second that the clip lasts at
    least, times the frame rate, is a number. *)
Lemma tenth_times_rate_not_nan x :
  (0 <? 1 / x)%float = true -> PrimFloat.is_nan (0.1 * x) = false.
Proof.
  intros H. rewrite is_nan_false, mul_spec.
  change (Prim2SF 0.1) with (S754_finite false 7205759403792794 (-56)).
  unfold SF64mul, SFmul.
  apply one_div_positive_inv in H as [->|(m & e & ->)]; [done|].
  apply binary_round_aux_not_nan. lia.
Qed.




(** ** [sliceVideoToGif]: the sampling loop *)

Section SamplingFacts.
Variable s : SliceSettings.

(** The times the loop seeks to: at least one and at most [n]; each is
    the one before plus [step]; none after the first is past [endTime];
    and when the loop stops short of [n] rounds, the next time is past
    [endTime]. *)
Lemma times_spec n t :
  let ts := times s n t in
  (length ts <= n)%nat /\
  ((1 <= n)%nat -> (1 <= length ts)%nat) /\
  (forall k x, ts !! k = Some x ->
     x = Nat.iter k (fun u => (u + step s)%float) t) /\
  (forall k x, (0 < k)%nat -> ts !! k = Some x ->
     (endTime s <? x)%float = false) /\
  ((length ts < n)%nat ->
   (endTime s <? Nat.iter (length ts) (fun u => (u + step s)%float) t)%float
   = true).
Proof.
  revert t. induction n as [|n IH]; intros t.
  { cbn. split; [lia|]. split; [lia|]. split; [done|]. split; [done|lia]. }
  cbn [times].
  destruct (endTime s <? t + step s)%float eqn:Hbrk.
  - cbn. split; [lia|]. split; [lia|]. split.
    + intros [|k] x Hk; [|done]. by injection Hk as <-.
    + split; [by intros [|k] x Hk0 Hk; [lia|]|]. by intros _.
  - destruct (IH (t + step s)%float) as (Hlen & _ & Htimes & Hgo & Hshort).
    cbn [length]. split; [lia|]. split; [lia|]. split; [|split].
    + intros [|k] x Hk; [by injection Hk as <-|].
      rewrite Nat.iter_succ_r. by apply Htimes.
    + intros [|k] x Hk0 Hk; [lia|].
      destruct k as [|k].
      * specialize (Htimes 0%nat x Hk). cbn in Htimes. by subst x.
      * apply (Hgo (S k)); [lia|done].
    + intros Hlt. rewrite Nat.iter_succ_r. apply Hshort. lia.
Qed.


Lemma rounds_finite v :
  Binary64.to_Q (clip_duration s * fps s)%float = Some v ->
  (Z.of_nat (rounds s) <= Z.max 1 (Qfloor v)).
Proof.
  intros Hv. unfold rounds, iterations, totalFrames, Binary64.floor.
  rewrite Hv. cbn [fmap option_fmap option_map].
  destruct (Z.max 1 (Qfloor v) <=? 2 ^ 53) eqn:Hk.
  - lia.
  - apply Z.leb_gt in Hk. lia.
Qed.

(** Unless that product is NaN, the loop makes at least one round. *)
Lemma rounds_pos :
  PrimFloat.is_nan (clip_duration s * fps s) = false -> (1 <= rounds s)%nat.
Proof.
  intros Hn. unfold rounds, iterations, totalFrames.
  assert (Hbig : (1 <= Z.to_nat (2 ^ 53))%nat)
    by (change (2 ^ 53) with 9007199254740992; lia).
  destruct (Binary64.floor (clip_duration s * fps s)) as [k|];
    cbn [fmap option_fmap option_map].
  - destruct (Z.max 1 k <=? 2 ^ 53); [lia|done].
  - rewrite Hn. by destruct (_ <? 0)%float.
Qed.

Lemma to_Q_not_nan x v : Binary64.to_Q x = Some v -> PrimFloat.is_nan x = false.
Proof.
  unfold Binary64.to_Q. intros H. apply is_nan_false. intros Hn.
  by rewrite Hn in H.
Qed.

End SamplingFacts.

Section CaptureFacts.
Variables (rev : Revision) (video : HTMLVideoElement).
Variables (sx sy sw sh : Z) (s : SliceSettings).


(** A loop that resolved had each of its seeks answered, and added a
    frame for each of its times. *)
Lemma capture_resolved n f t gif g :
  capture rev video sx sy sw sh s n f t gif = Resolved g ->
  g = gif ++ (frame_at sx sy sw sh s <$> times s n t) /\
  forall k u, times s n t !! k = Some u ->
    seekTo rev video (f + k) u = Resolved tt.
Proof.
  revert f t gif. induction n as [|n IH]; intros f t gif Hcap.
  { cbn in *. destruct (endless s); [done|]. injection Hcap as <-.
    by rewrite app_nil_r. }
  cbn [capture times] in *.
  destruct (seekTo rev video f t) as [[]| |] eqn:Hseek; [|done..].
  destruct (endTime s <? t + step s)%float eqn:Hbrk.
  - injection Hcap as <-. split; [done|].
    intros [|k] u Hk; [|done]. injection Hk as <-. by rewrite Nat.add_0_r.
  - destruct (IH _ _ _ Hcap) as (-> & Hseeks).
    split; [by rewrite <- app_assoc|].
    intros [|k] u Hk.
    + injection Hk as <-. by rewrite Nat.add_0_r.
    + replace (f + S k)%nat with (S f + k)%nat by lia. by apply Hseeks.
Qed.

(** When seek number [f0] is the first that is not answered, the loop
    rejects with what that seek rejected with. *)
Lemma capture_rejected n f t gif f0 m :
  (forall k u, (f + k < f0)%nat -> times s n t !! k = Some u ->
     seekTo rev video (f + k) u = Resolved tt) ->
  (forall u, times s n t !! (f0 - f)%nat = Some u ->
     seekTo rev video f0 u = Rejected m) ->
  (f <= f0 < f + length (times s n t))%nat ->
  capture rev video sx sy sw sh s n f t gif = Rejected m.
Proof.
  revert f t gif. induction n as [|n IH]; intros f t gif Hok Hfail Hf0.
  { cbn in Hf0. lia. }
  cbn [capture]. destruct (decide (f = f0)) as [->|Hne].
  { rewrite (Hfail t); [done|]. by rewrite Nat.sub_diag. }
  pose proof (Hok 0%nat t ltac:(lia) eq_refl) as Hs0.
  rewrite Nat.add_0_r in Hs0. rewrite Hs0.
  cbn [times] in Hf0, Hok, Hfail.
  destruct (endTime s <? t + step s)%float eqn:Hbrk.
  { cbn in Hf0. lia. }
  apply IH.
  - intros k u Hk Hu. replace (S f + k)%nat with (f + S k)%nat by lia.
    apply Hok; [lia|done].
  - intros u Hu. apply Hfail.
    replace (f0 - f)%nat with (S (f0 - S f)) by lia. done.
  - cbn [length] in Hf0. lia.
Qed.

End CaptureFacts.

(** ** [seekTo] and the five-second bound *)

Lemma seekTo_settles rev video f t :
  is_finite t = true ->
  seekTo rev video f t = Resolved tt \/
  seekTo rev video f t = Rejected (seek_timeout_message rev).
Proof.
  unfold seekTo. intros ->.
  destruct (seeked_after video f t) as [ms|]; [|by right].
  destruct (ms <? 5000)%nat; [by left|by right].
Qed.

Lemma seekTo_resolved rev video f t :
  seekTo rev video f t = Resolved tt <->
  is_finite t = true /\
  exists ms, seeked_after video f t = Some ms /\ (ms < 5000)%nat.
Proof.
  unfold seekTo. destruct (is_finite t); [|by split; [|intros [? _]]].
  destruct (seeked_after video f t) as [ms|].
  - destruct (ms <? 5000)%nat eqn:Hms.
    + apply Nat.ltb_lt in Hms. split; [eauto|done].
    + apply Nat.ltb_ge in Hms. split; [done|].
      intros (_ & ms' & [= <-] & Hlt). lia.
  - split; [done|]. by intros (_ & ms' & ? & _).
Qed.

Lemma seekTo_late rev video f t :
  is_finite t = true ->
  match seeked_after video f t with
  | Some ms => (5000 < ms)%nat
  | None => True
  end ->
  seekTo rev video f t = Rejected (seek_timeout_message rev).
Proof.
  unfold seekTo. intros ->.
  destruct (seeked_after video f t) as [ms|]; [|done].
  intros Hms. destruct (ms <? 5000)%nat eqn:Hlt; [|done].
  apply Nat.ltb_lt in Hlt. lia.
Qed.

Lemma sliceVideoToGif_rejected rev video sx sy sw sh s B workerBlobUrl f0 u m :
  window_GIF B = true ->
  truthy_string workerBlobUrl = true ->
  sample_times s !! f0 = Some u ->
  (forall g t, (g < f0)%nat -> sample_times s !! g = Some t ->
     seekTo rev video g t = Resolved tt) ->
  seekTo rev video f0 u = Rejected m ->
  sliceVideoToGif rev video sx sy sw sh s B workerBlobUrl = Rejected m.
Proof.
  intros HG Hw Hu Hok Hfail. unfold sliceVideoToGif.
  rewrite HG, Hw. cbn [negb orb]. unfold capture_all.
  rewrite (capture_rejected rev video sx sy sw sh s (rounds s) 0
             (startTime s) [] f0 m); [done| | |].
  - intros k t Hk Ht. apply Hok; [lia|done].
  - intros u'. rewrite Nat.sub_0_r. unfold sample_times in Hu.
    rewrite Hu. by intros [= <-].
  - apply lookup_lt_Some in Hu. unfold sample_times in Hu. lia.
Qed.

(** C6.  Every seek of the sampling loop waits for the [seeked] event for
    at most 5000 ms: a seek to a time (a finite number) always settles, it
    resolves when the event comes before 5000 ms have passed, and it
    rejects with the seek-timeout error when the event comes later or
    never.  When seek number [f0] of a clip is the first that is not
    answered within the bound, the production of that slice rejects with
    that error, and the whole run ends there: no later slice is started,
    the status line and the console show the timeout message, the result
    set stays incomplete and processing is switched off. *)
Theorem seek_timeout_fails_slice_and_aborts_run rev B st i video f0 u :
  not_ready st = false ->
  mode st = VIDEO ->
  window_GIF B = true ->
  (i < 9)%nat ->
  videoRef_current B i = Some video ->
  (forall j, (j < i)%nat -> exists r, produce_slice rev B st j = Resolved r) ->
  sample_times (settings st) !! f0 = Some u ->
  is_finite u = true ->
  (forall g t, (g < f0)%nat -> sample_times (settings st) !! g = Some t ->
     is_finite t = true /\
     exists ms, seeked_after video g t = Some ms /\ (ms < 5000)%nat) ->
  match seeked_after video f0 u with
  | Some ms => (5000 < ms)%nat
  | None => True
  end ->
  let es := handleProcess rev B st in
  let st' := run st es in
  let cause := match rev with
               | Rev1 => "视频定位超时"
               | Rev2 => "视频跳转超时，可能格式不兼容"
               end in
  (forall v g t, is_finite t = true ->
     seekTo rev v g t = Resolved tt \/ seekTo rev v g t = Rejected cause) /\
  (forall v g t ms, is_finite t = true -> seeked_after v g t = Some ms ->
     ((ms < 5000)%nat -> seekTo rev v g t = Resolved tt) /\
     ((5000 < ms)%nat -> seekTo rev v g t = Rejected cause)) /\
  (forall v g t, is_finite t = true -> seeked_after v g t = None ->
     seekTo rev v g t = Rejected cause) /\
  (forall v g t, seekTo rev v g t = Resolved tt ->
     exists ms, seeked_after v g t = Some ms /\ (ms <= 5000)%nat) /\
  produce_slice rev B st i = Rejected cause /\
  started es = seq 0 (S i) /\
  status st' = "制作失败: " +:+ cause /\
  console es = [cause] /\
  ~ complete (results st') /\
  isProcessing st' = false.
Proof.
  intros Hg Hm HG Hi Hv Hbefore Hu Hfin Hok Hlate es st' cause.
  assert (Hcause : cause = seek_timeout_message rev) by (by destruct rev).
  assert (Hw : truthy_string (workerBlobUrl st) = true).
  { unfold not_ready in Hg. rewrite Hm in Hg.
    apply orb_false_iff in Hg as [_ Hg]. cbn in Hg.
    by destruct (truthy_string (workerBlobUrl st)). }
  assert (Hfail : produce_slice rev B st i = Rejected cause).
  { unfold produce_slice. rewrite Hm, Hv, Hcause.
    apply (sliceVideoToGif_rejected _ _ _ _ _ _ _ _ _ f0 u); try done.
    - intros g t Hgf Ht. apply seekTo_resolved. by apply Hok.
    - by apply seekTo_late. }
  assert (Hes : es = process (produce_slice rev B st)).
  { subst es. unfold handleProcess. by rewrite Hg. }
  destruct (process_first_failure _ i cause Hi Hbefore Hfail st)
    as (Hs & Hco & _ & Hst & Hp & Hr).
  rewrite <- Hes in *. fold st' in Hst, Hp, Hr.
  split; [rewrite Hcause; intros; by apply seekTo_settles|].
  split.
  { intros v g t ms Ht Hms. split; intros Hlt.
    - apply seekTo_resolved. eauto.
    - rewrite Hcause. apply seekTo_late; [done|]. by rewrite Hms. }
  split.
  { intros v g t Ht Hnone. rewrite Hcause. apply seekTo_late; [done|].
    by rewrite Hnone. }
  split.
  { intros v g t Hres. apply seekTo_resolved in Hres as (_ & ms & Hms & Hlt).
    exists ms. split; [done|lia]. }
  split; [done|]. split; [done|].
  split; [rewrite Hst; unfold status_failed; by destruct rev|].
  split; [done|].
  split; [by apply (prefix_filled_incomplete i)|done].
Qed.

Lemma seek_timeout_fails_slice_and_aborts_run_witness :
  let es := handleProcess Rev2 (browser_slow_seek 3 4) sample_video_state in
  sample_times (settings sample_video_state) !! 4%nat = Some 0.4%float /\
  started es = [0; 1; 2; 3]%nat /\
  status (run sample_video_state es) = "制作失败: 视频跳转超时，可能格式不兼容".
Proof.
  split; [vm_compute; reflexivity|].
  destruct (seek_timeout_fails_slice_and_aborts_run Rev2 (browser_slow_seek 3 4)
              sample_video_state 3 (video_slow_at 4) 4 0.4%float)
    as (_ & _ & _ & _ & _ & Hs & Hst & _).
  - reflexivity.
  - reflexivity.
  - reflexivity.
  - lia.
  - reflexivity.
  - intros j Hj.
    destruct j as [|[|[|j]]]; [eexists; vm_compute; reflexivity..|lia].
  - vm_compute. reflexivity.
  - reflexivity.
  - intros g t Hg Ht.
    do 4 (destruct g as [|g];
          [injection Ht as <-; split; [reflexivity|];
           exists 30%nat; split; [reflexivity|lia]|]).
    lia.
  - vm_compute. lia.
  - split; [exact Hs|exact Hst].
Defined.

(** ** The frame sampler *)

Lemma all_from_spec n k P i :
  all_from n k P = true -> k <= i < k + Z.of_nat n -> P i = true.
Proof.
  revert k. induction n as [|n IH]; intros k Hall Hi; [lia|].
  cbn [all_from] in Hall. apply andb_true_iff in Hall as [Hk Hall].
  destruct (decide (i = k)) as [->|Hne]; [done|].
  apply (IH (k + 1)); [done|lia].
Qed.








(** * Further properties of the component *)

(** ** More on effect lists *)

Lemma processing_flags_app es1 es2 :
  processing_flags (es1 ++ es2) = processing_flags es1 ++ processing_flags es2.
Proof. apply omap_app. Qed.

(** The [isProcessing] cell holds the last flag handed to
    [setIsProcessing]. *)
Lemma isProcessing_run st es :
  isProcessing (run st es)
  = default (isProcessing st) (last (processing_flags es)).
Proof.
  revert st. induction es as [|e es IH]; intros st; [done|].
  change (run st (e :: es)) with (run (apply_effect st e) es).
  rewrite IH. destruct e; simpl; try done.
  rewrite last_cons. by destruct (last (processing_flags es)).
Qed.

Lemma run_silent st es : Forall silent es -> run st es = st.
Proof.
  intros Hes. revert st. induction Hes as [|e es He _ IH]; intros st; [done|].
  change (run st (e :: es)) with (run (apply_effect st e) es).
  by rewrite He, IH.
Qed.

Lemma same_inputs_refl st : same_inputs st st.
Proof. by repeat split. Qed.

Lemma same_inputs_trans st1 st2 st3 :
  same_inputs st1 st2 -> same_inputs st2 st3 -> same_inputs st1 st3.
Proof.
  intros (H1 & H2 & H3 & H4 & H5) (K1 & K2 & K3 & K4 & K5).
  repeat split; congruence.
Qed.

Lemma run_keeps_inputs st es :
  Forall keeps_inputs es -> same_inputs st (run st es).
Proof.
  intros Hes. revert st. induction Hes as [|e es He _ IH]; intros st.
  - apply same_inputs_refl.
  - change (run st (e :: es)) with (run (apply_effect st e) es).
    eapply same_inputs_trans; [apply He|apply IH].
Qed.

Lemma progress_run_last st es :
  progress (run st es) = default (progress st) (last (progress_values es)).
Proof.
  revert st. induction es as [|e es IH]; intros st; [done|].
  change (run st (e :: es)) with (run (apply_effect st e) es).
  rewrite IH. destruct e; simpl; try done.
  rewrite last_cons. by destruct (last (progress_values es)).
Qed.

Lemma status_run_last st es :
  status (run st es) = default (status st) (last (statuses es)).
Proof.
  revert st. induction es as [|e es IH]; intros st; [done|].
  change (run st (e :: es)) with (run (apply_effect st e) es).
  rewrite IH. destruct e; simpl; try done.
  rewrite last_cons. by destruct (last (statuses es)).
Qed.

(** ** The loop of [handleProcess], continued *)

Section LoopMore.
Variable slice : nat -> Promise SliceResult.

(** The loop writes none of the cells it reads, and never touches
    [isProcessing]. *)
Lemma for_loop_keeps_inputs n i newResults :
  Forall keeps_inputs (for_loop slice n i newResults).1 /\
  processing_flags (for_loop slice n i newResults).1 = [].
Proof.
  revert i newResults. induction n as [|n IH]; intros i newResults.
  { by split. }
  cbn [for_loop]. destruct (slice i) as [result|m|].
  - destruct (IH (S i) (<[i:=Some result]> newResults)) as [Hk Hf].
    cbn [fst]. split.
    + apply Forall_app. split; [|exact Hk].
      repeat constructor; intros st; apply same_inputs_refl.
    + by rewrite processing_flags_app, Hf.
  - split; [|done]. repeat constructor; intros st; apply same_inputs_refl.
  - split; [|done]. repeat constructor; intros st; apply same_inputs_refl.
Qed.

Lemma process_keeps_inputs : Forall keeps_inputs (process slice).
Proof.
  unfold process. apply Forall_app. split.
  { repeat constructor; intros st; apply same_inputs_refl. }
  apply Forall_app. split; [apply for_loop_keeps_inputs|].
  destruct ((for_loop slice 9 0 (replicate 9 None)).2);
    repeat constructor; intros st; apply same_inputs_refl.
Qed.

(** Slot [j] of a published array holds what slice [j] resolved to. *)
Lemma published_slots k rs :
  (replicate 9 None :: published (for_loop slice 9 0 (replicate 9 None)).1)
    !! k = Some rs ->
  forall j, (j < k)%nat ->
    exists r, slice j = Resolved r /\ rs !! j = Some (Some r).
Proof.
  revert rs. induction k as [|k IH]; intros rs Hk j Hj; [lia|].
  destruct (lookup_lt_is_Some_2
              (replicate 9 None
               :: published (for_loop slice 9 0 (replicate 9 None)).1) k)
    as [a Ha]; [apply lookup_lt_Some in Hk; lia|].
  destruct (for_loop_chain slice 9 0 _ k a rs Ha Hk) as (r & Hr & ->).
  cbn [Nat.add] in *.
  pose proof (for_loop_prefix_filled slice 9 0 _ k a eq_refl
                prefix_filled_replicate Ha) as [Hlen _].
  pose proof (for_loop_prefix_filled slice 9 0 _ (S k) _ eq_refl
                prefix_filled_replicate Hk) as [Hlen' _].
  assert (Hk9 : (k < 9)%nat).
  { apply lookup_lt_Some in Hk. cbn [length] in Hk.
    pose proof (for_loop_spec slice 9 0 (replicate 9 None)) as (_ & Hc & _).
    destruct ((for_loop slice 9 0 (replicate 9 None)).2); lia. }
  destruct (decide (j = k)) as [->|Hne].
  - exists r. split; [done|]. apply list_lookup_insert_eq. lia.
  - destruct (IH a Ha j ltac:(lia)) as (r' & Hr' & Hl).
    exists r'. split; [done|]. by rewrite list_lookup_insert_ne.
Qed.

Section Completed.
Hypothesis Hall : forall j, (j < 9)%nat -> exists r, slice j = Resolved r.

Lemma for_loop_completes :
  let body := for_loop slice 9 0 (replicate 9 None) in
  body.2 = Normal /\ length (published body.1) = 9%nat.
Proof.
  intros body.
  pose proof (for_loop_spec slice 9 0 (replicate 9 None)) as (_ & Hc & _).
  fold body in Hc. cbn [Nat.add] in Hc.
  destruct (body.2) as [|m|]; [done| |]; destruct Hc as [Hlt Hs];
    destruct (Hall _ Hlt) as [r Hr]; congruence.
Qed.

Lemma process_completes st :
  let es := process slice in
  started es = seq 0 9 /\
  console es = [] /\
  status (run st es) = "所有切片制作完成！" /\
  isProcessing (run st es) = false /\
  progress (run st es) = progress_after 8 /\
  length (results (run st es)) = 9%nat /\
  (forall j, (j < 9)%nat ->
     exists r, slice j = Resolved r /\ results (run st es) !! j = Some (Some r)).
Proof.
  intros es.
  pose proof (for_loop_spec slice 9 0 (replicate 9 None))
    as (_ & _ & Hp & Hs & _ & Hco & _).
  destruct for_loop_completes as [Hc Hd].
  assert (Hes : es = ([ setIsProcessing true; setProgress 0%Q;
                        setResults (replicate 9 None) ]
                      ++ (for_loop slice 9 0 (replicate 9 None)).1)
                     ++ [ setStatus "所有切片制作完成！";
                          setIsProcessing false ]).
  { subst es. unfold process. rewrite Hc. by rewrite app_assoc. }
  rewrite Hc, Hd in Hs. rewrite Hd in Hp.
  assert (Hlast : exists rs,
            (replicate 9 None
             :: published (for_loop slice 9 0 (replicate 9 None)).1) !! 9%nat
            = Some rs /\ results (run st es) = rs).
  { destruct (lookup_lt_is_Some_2
                (replicate 9 None
                 :: published (for_loop slice 9 0 (replicate 9 None)).1) 9)
      as [rs Hrs]; [cbn [length]; lia|].
    exists rs. split; [done|].
    rewrite results_run. subst es. rewrite published_process, last_lookup.
    cbn [length pred]. by rewrite Hd, Hrs. }
  destruct Hlast as (rs & Hrs & Hres).
  split; [by rewrite Hes, !started_app, Hs|].
  split; [by rewrite Hes, !console_app, Hco|].
  split; [by rewrite Hes, run_app|].
  split; [by rewrite Hes, run_app|].
  split.
  { rewrite progress_run_last. subst es.
    rewrite progress_values_process, Hd. reflexivity. }
  rewrite Hres. split.
  - apply (for_loop_prefix_filled slice 9 0 _ 9 rs eq_refl
             prefix_filled_replicate Hrs).
  - intros j Hj. by apply (published_slots 9 rs Hrs).
Qed.
End Completed.

Section Hang.
Variable i : nat.
Hypothesis Hi : (i < 9)%nat.
Hypothesis Hbefore : forall j, (j < i)%nat -> exists r, slice j = Resolved r.
Hypothesis Hpending : slice i = Pending.

Lemma for_loop_first_pending :
  let body := for_loop slice 9 0 (replicate 9 None) in
  body.2 = Suspended /\ length (published body.1) = i.
Proof.
  intros body.
  pose proof (for_loop_spec slice 9 0 (replicate 9 None))
    as (Hres & Hc & _). fold body in Hres, Hc. cbn [Nat.add] in *.
  set (d := length (published body.1)) in *.
  assert (Hdi : d = i).
  { destruct (Nat.lt_trichotomy d i) as [Hlt|[Heq|Hgt]]; [|done|].
    - destruct (Hbefore d Hlt) as [r Hr].
      destruct (body.2); [lia|destruct Hc; congruence..].
    - destruct (Hres i Hgt) as [r Hr]. congruence. }
  split; [|done]. rewrite Hdi in Hc.
  destruct (body.2) as [|m'|]; [lia| |]; destruct Hc as [_ Hc];
    congruence.
Qed.

Lemma process_hangs st :
  let es := process slice in
  started es = seq 0 (S i) /\
  console es = [] /\
  last es = Some (start_slice i) /\
  status (run st es) = status_processing i /\
  isProcessing (run st es) = true /\
  prefix_filled i (results (run st es)).
Proof.
  intros es.
  pose proof (for_loop_spec slice 9 0 (replicate 9 None))
    as (_ & _ & _ & Hs & Ht & Hco & _).
  pose proof (for_loop_keeps_inputs 9 0 (replicate 9 None)) as [_ Hfl].
  destruct for_loop_first_pending as [Hc Hd].
  assert (Hes : es = [ setIsProcessing true; setProgress 0%Q;
                       setResults (replicate 9 None) ]
                     ++ (for_loop slice 9 0 (replicate 9 None)).1).
  { subst es. unfold process. rewrite Hc. by rewrite app_nil_r. }
  rewrite Hc, Hd in Hs, Ht.
  split; [by rewrite Hes, started_app, Hs, Nat.add_1_r|].
  split; [by rewrite Hes, console_app, Hco|].
  split.
  { rewrite Hes.
    assert (Hl : last (for_loop slice 9 0 (replicate 9 None)).1
                 = Some (start_slice i)).
    { clear -Hbefore Hpending Hi.
      assert (Hgen : forall n k nr, (k + n = 9)%nat -> (k <= i)%nat ->
                last (for_loop slice n k nr).1 = Some (start_slice i)).
      { induction n as [|n IH]; intros k nr Hkn Hki; [lia|].
        cbn [for_loop]. destruct (decide (k = i)) as [->|Hne].
        - by rewrite Hpending.
        - destruct (Hbefore k ltac:(lia)) as [r ->]. cbn [fst].
          rewrite last_app.
          rewrite (IH (S k) _ ltac:(lia) ltac:(lia)). done. }
      apply Hgen; lia. }
    by rewrite last_app, Hl. }
  split.
  { rewrite status_run_last, Hes, statuses_app, Ht, Nat.add_1_r.
    rewrite seq_S, fmap_app, app_assoc. cbn [fmap list_fmap Nat.add].
    by rewrite last_snoc. }
  split.
  { by rewrite isProcessing_run, Hes, processing_flags_app, Hfl. }
  rewrite results_run. subst es. rewrite published_process.
  rewrite last_lookup. cbn [length pred]. rewrite Hd.
  destruct (lookup_lt_is_Some_2
    (replicate 9 None :: published (for_loop slice 9 0 (replicate 9 None)).1) i)
    as [rs Hrs]; [cbn [length]; lia|].
  rewrite Hrs. cbn [default].
  apply (for_loop_prefix_filled slice 9 0 _ i rs eq_refl
           prefix_filled_replicate Hrs).
Qed.
End Hang.
End LoopMore.

(** ** [handleProcess]: runs that complete and runs that hang *)

Lemma not_ready_file st : not_ready st = false -> truthy (file st) = true.
Proof.
  unfold not_ready. intros H. apply orb_false_iff in H as [H _].
  by apply negb_false_iff in H.
Qed.

Lemma download_button_shown_complete st :
  complete (results st) -> download_button_shown st = true.
Proof.
  intros Hc. destruct (complete_nine _ Hc)
    as (r0 & r1 & r2 & r3 & r4 & r5 & r6 & r7 & r8 & Hrs).
  unfold download_button_shown. by rewrite Hrs.
Qed.

(** X1.  When all nine productions resolve, the run visits the slices
    0 to 8 in order and ends with slot [j] holding what slice [j]
    resolved to, the progress at 100, the completion text as status,
    processing switched off, nothing on the console, and the download
    button rendered. *)
Theorem run_completes_when_all_slices_resolve rev B st :
  not_ready st = false ->
  (forall j, (j < 9)%nat -> exists r, produce_slice rev B st j = Resolved r) ->
  let es := handleProcess rev B st in
  let st' := run st es in
  started es = seq 0 9 /\
  complete (results st') /\
  (forall j r, (j < 9)%nat -> produce_slice rev B st j = Resolved r ->
     results st' !! j = Some (Some r)) /\
  (progress st' == 100)%Q /\
  status st' = "所有切片制作完成！" /\
  isProcessing st' = false /\
  console es = [] /\
  download_button_shown st' = true /\
  process_button_disabled st' = false.
Proof.
  intros Hg Hall es st'.
  assert (Hes : es = process (produce_slice rev B st)).
  { subst es. unfold handleProcess. by rewrite Hg. }
  destruct (process_completes _ Hall st)
    as (Hs & Hco & Hst & Hp & Hpr & Hlen & Hslots).
  rewrite <- Hes in *. fold st' in Hst, Hp, Hpr, Hlen, Hslots.
  assert (Hc : complete (results st')).
  { split; [done|]. intros j Hj. destruct (Hslots j Hj) as (r & _ & Hr).
    by exists r. }
  split; [done|]. split; [done|]. split.
  { intros j r Hj Hr. destruct (Hslots j Hj) as (r' & Hr' & Hl). congruence. }
  split; [by rewrite Hpr|]. split; [done|]. split; [done|]. split; [done|].
  split; [by apply download_button_shown_complete|].
  unfold process_button_disabled.
  assert (Hf : truthy (file st') = true).
  { destruct (run_keeps_inputs st es) as (Hfile & _).
    - rewrite Hes. apply process_keeps_inputs.
    - fold st' in Hfile. rewrite Hfile. by apply not_ready_file. }
  by rewrite Hf, Hp.
Qed.

Lemma run_completes_when_all_slices_resolve_witness :
  let st' := run sample_video_state
               (handleProcess Rev2 sample_browser sample_video_state) in
  complete (results st') /\ status st' = "所有切片制作完成！".
Proof.
  destruct (run_completes_when_all_slices_resolve Rev2 sample_browser
              sample_video_state)
    as (_ & Hc & _ & _ & Hst & _).
  - reflexivity.
  - intros j Hj.
    do 9 (destruct j as [|j]; [eexists; vm_compute; reflexivity|]). lia.
  - split; [exact Hc|exact Hst].
Defined.

(** X2.  When the production of slice [i] never settles (the slices
    before it having resolved), the run never ends: its last effect is the
    start of slice [i], the status stays at the processing text of that
    slice, [isProcessing] stays true and so the process button stays
    disabled, nothing is reported on the console, and the result set keeps
    the slots [0 .. i-1]. *)
Theorem run_hangs_when_a_slice_never_settles rev B st i :
  not_ready st = false ->
  (i < 9)%nat ->
  (forall j, (j < i)%nat -> exists r, produce_slice rev B st j = Resolved r) ->
  produce_slice rev B st i = Pending ->
  let es := handleProcess rev B st in
  let st' := run st es in
  last es = Some (start_slice i) /\
  started es = seq 0 (S i) /\
  status st' = "正在处理第 " +:+ pretty (i + 1)%nat +:+ " / 9 个切片..." /\
  isProcessing st' = true /\
  process_button_disabled st' = true /\
  console es = [] /\
  prefix_filled i (results st') /\
  download_button_shown st' = false.
Proof.
  intros Hg Hi Hbefore Hpend es st'.
  assert (Hes : es = process (produce_slice rev B st)).
  { subst es. unfold handleProcess. by rewrite Hg. }
  destruct (process_hangs _ i Hi Hbefore Hpend st)
    as (Hs & Hco & Hl & Hst & Hp & Hr).
  rewrite <- Hes in *. fold st' in Hst, Hp, Hr.
  split; [done|]. split; [done|]. split; [done|]. split; [done|].
  split; [unfold process_button_disabled; by rewrite Hp, orb_true_r|].
  split; [done|]. split; [done|].
  unfold download_button_shown.
  destruct (forallb _ _) eqn:Hall; [|done].
  rewrite forallb_forall in Hall.
  destruct Hr as [_ Hr]. destruct (Hr i Hi) as [_ Hn].
  specialize (Hall None). cbn in Hall. symmetry. apply Hall.
  apply list_elem_of_In, list_elem_of_lookup. exists i. apply Hn. lia.
Qed.

Lemma run_hangs_when_a_slice_never_settles_witness :
  let B := browser_null_blob_for (slice_rect (media 7 10) 4) in
  let es := handleProcess Rev1 B sample_image_state in
  started es = [0; 1; 2; 3; 4]%nat /\
  isProcessing (run sample_image_state es) = true.
Proof.
  destruct (run_hangs_when_a_slice_never_settles Rev1
              (browser_null_blob_for (slice_rect (media 7 10) 4))
              sample_image_state 4)
    as (_ & Hs & _ & Hp & _).
  - reflexivity.
  - lia.
  - intros j Hj.
    do 4 (destruct j as [|j]; [eexists; vm_compute; reflexivity|]). lia.
  - vm_compute. reflexivity.
  - split; [exact Hs|exact Hp].
Defined.

(** ** Image mode *)

Lemma produce_slice_image rev B st i img :
  mode st = IMAGE ->
  imageRef_current B i = Some img ->
  produce_slice rev B st i
  = sliceImage B img (sx (slice_rect (mediaInfo st) i))
      (sy (slice_rect (mediaInfo st) i)) (sw (slice_rect (mediaInfo st) i))
      (sh (slice_rect (mediaInfo st) i)).
Proof. intros Hm Hi. unfold produce_slice. by rewrite Hm, Hi. Qed.

Lemma produce_slice_usable rev B st i :
  mode st = IMAGE ->
  image_usable B ->
  produce_slice rev B st i
  = if toBlob_null B (slice_rect (mediaInfo st) i) then Pending
    else Resolved (png_slice B (mediaInfo st) i).
Proof.
  intros Hm Himg. destruct (Himg i) as (img & Hi & Hdraw).
  rewrite (produce_slice_image rev B st i img Hm Hi).
  unfold sliceImage. by rewrite Hdraw.
Qed.

Lemma not_ready_image st :
  truthy (file st) = true -> mode st = IMAGE -> not_ready st = false.
Proof. intros Hf Hm. unfold not_ready. by rewrite Hf, Hm. Qed.

(** X3.  In image mode with a file selected, whether or not the GIF
    worker was loaded.  With the picture mounted and drawable throughout,
    a run cannot fail: nothing reaches the console and no failure text is
    set; if the canvas gives a blob for each of the nine rectangles the
    run completes and slot [i] holds the PNG of rectangle [i]; at the
    first rectangle for which it gives none, the run hangs.  When the loop
    comes to a slice for which [drawImage] throws (the picture is in the
    broken state), the run fails there: the text of the exception is
    printed on the console and shown as the failure, processing is
    switched off, and the slots filled before stay. *)
Theorem image_run_completes_or_hangs rev B st :
  truthy (file st) = true ->
  mode st = IMAGE ->
  let mi := mediaInfo st in
  let es := handleProcess rev B st in
  let st' := run st es in
  (image_usable B ->
   console es = [] /\
   (forall m, status_failed m ∉ statuses es) /\
   ((forall i, (i < 9)%nat -> toBlob_null B (slice_rect mi i) = false) ->
    status st' = "所有切片制作完成！" /\
    isProcessing st' = false /\
    results st' = (fun i => Some (png_slice B mi i)) <$> seq 0 9) /\
   (forall i, (i < 9)%nat ->
      toBlob_null B (slice_rect mi i) = true ->
      (forall j, (j < i)%nat -> toBlob_null B (slice_rect mi j) = false) ->
      isProcessing st' = true /\
      started es = seq 0 (S i) /\
      prefix_filled i (results st'))) /\
  (forall i img m, (i < 9)%nat ->
     imageRef_current B i = Some img ->
     drawImage_throws img = Some m ->
     (forall j, (j < i)%nat -> exists r, produce_slice rev B st j = Resolved r) ->
     produce_slice rev B st i = Rejected m /\
     started es = seq 0 (S i) /\
     failure_report st es = ("制作失败: " +:+ or_else m "未知错误", [m]) /\
     isProcessing st' = false /\
     prefix_filled i (results st')).
Proof.
  intros Hf Hm mi es st'.
  pose proof (not_ready_image st Hf Hm) as Hg.
  assert (Hes : es = process (produce_slice rev B st)).
  { subst es. unfold handleProcess. by rewrite Hg. }
  split.
  { intros Himg.
    assert (Hslice : forall i, produce_slice rev B st i
              = if toBlob_null B (slice_rect mi i) then Pending
                else Resolved (png_slice B mi i))
      by (intros i; by apply produce_slice_usable).
    pose proof (for_loop_spec (produce_slice rev B st) 9 0 (replicate 9 None))
      as (_ & Hc & _ & _ & Ht & Hco & _).
    assert (Hno : forall m,
              (for_loop (produce_slice rev B st) 9 0 (replicate 9 None)).2
              <> Throw m).
    { intros m Hthrow. rewrite Hthrow in Hc. destruct Hc as [_ Hc].
      rewrite Hslice in Hc. by destruct (toBlob_null B _). }
    split; [|split; [|split]].
    - rewrite Hes. unfold process. rewrite !console_app, Hco.
      destruct ((for_loop (produce_slice rev B st) 9 0 (replicate 9 None)).2)
        as [|m|]; [done| |done]. by destruct (Hno m).
    - intros m Hin. rewrite Hes in Hin. unfold process in Hin.
      rewrite !statuses_app, Ht in Hin.
      apply elem_of_app in Hin as [Hin|Hin]; [by apply elem_of_nil in Hin|].
      apply elem_of_app in Hin as [Hin|Hin].
      + apply list_elem_of_fmap in Hin as (k & Hk & _).
        unfold status_failed, status_processing in Hk. discriminate Hk.
      + destruct ((for_loop (produce_slice rev B st) 9 0
                     (replicate 9 None)).2) as [|m'|].
        * cbn in Hin. apply elem_of_cons in Hin as [Hin|Hin];
            [discriminate Hin|by apply elem_of_nil in Hin].
        * by destruct (Hno m').
        * by apply elem_of_nil in Hin.
    - intros Hblob.
      assert (Hall : forall j, (j < 9)%nat ->
                exists r, produce_slice rev B st j = Resolved r).
      { intros j Hj. rewrite Hslice, (Hblob j Hj). eauto. }
      destruct (process_completes _ Hall st)
        as (_ & _ & Hst & Hp & _ & Hlen & Hslots).
      rewrite <- Hes in *. fold st' in Hst, Hp, Hlen, Hslots.
      split; [done|]. split; [done|].
      apply list_eq. intros j. destruct (decide (j < 9)%nat) as [Hj|Hj].
      + destruct (Hslots j Hj) as (r & Hr & Hl). rewrite Hl.
        rewrite Hslice, (Hblob j Hj) in Hr. injection Hr as <-.
        by rewrite list_lookup_fmap, lookup_seq_lt.
      + rewrite !lookup_ge_None_2; [done| |lia].
        rewrite length_fmap, length_seq. lia.
    - intros i Hi Hnull Hbefore.
      assert (Hb : forall j, (j < i)%nat ->
                exists r, produce_slice rev B st j = Resolved r).
      { intros j Hj. rewrite Hslice, (Hbefore j Hj). eauto. }
      assert (Hp : produce_slice rev B st i = Pending)
        by (by rewrite Hslice, Hnull).
      destruct (process_hangs _ i Hi Hb Hp st) as (Hs & _ & _ & _ & Hpr & Hr).
      rewrite <- Hes in *. by fold st' in Hpr, Hr. }
  intros i img m Hi Himg Hdraw Hbefore.
  assert (Hfail : produce_slice rev B st i = Rejected m).
  { rewrite (produce_slice_image rev B st i img Hm Himg).
    unfold sliceImage. by rewrite Hdraw. }
  destruct (process_first_failure _ i m Hi Hbefore Hfail st)
    as (Hs & Hco & _ & Hst & Hp & Hr).
  rewrite <- Hes in *. fold st' in Hst, Hp, Hr.
  split; [done|]. split; [done|].
  split; [unfold failure_report; fold st'; by rewrite Hst, Hco|].
  by split.
Qed.

Lemma image_run_completes_or_hangs_witness :
  console (handleProcess Rev1 sample_browser sample_image_state) = [] /\
  results (run sample_image_state
             (handleProcess Rev1 sample_browser sample_image_state))
  = (fun i => Some (png_slice sample_browser (media 7 10) i)) <$> seq 0 9 /\
  status (run sample_image_state
            (handleProcess Rev1 browser_with_broken_picture
               sample_image_state))
  = "制作失败: The HTMLImageElement provided is in the 'broken' state.".
Proof.
  destruct (image_run_completes_or_hangs Rev1 sample_browser
              sample_image_state eq_refl eq_refl)
    as (Hok & _).
  destruct Hok as (Hco & _ & Hdone & _).
  { intros i. exists sample_picture. by split. }
  destruct (image_run_completes_or_hangs Rev1 browser_with_broken_picture
              sample_image_state eq_refl eq_refl)
    as (_ & Hbroken).
  destruct (Hbroken 0%nat broken_picture
              "The HTMLImageElement provided is in the 'broken' state.")
    as (_ & _ & Hrep & _); [lia|reflexivity|reflexivity|intros j Hj; lia|].
  split; [exact Hco|]. split; [|exact (f_equal fst Hrep)].
  apply Hdone. intros i Hi. reflexivity.
Defined.

(** ** Failures before any frame is taken *)

(** X5.  In video mode with the worker script loaded but the GIF library
    missing from [window], the run fails at slice 0 with the text that the
    GIF engine is not ready, whatever the video does: no seek is needed
    for that, no slot is filled, and no later slice is started. *)
Theorem gif_engine_missing_fails_first_slice rev B st video :
  not_ready st = false ->
  mode st = VIDEO ->
  videoRef_current B 0%nat = Some video ->
  window_GIF B = false ->
  let es := handleProcess rev B st in
  let st' := run st es in
  produce_slice rev B st 0 = Rejected "GIF 引擎未就绪" /\
  started es = [0%nat] /\
  failure_report st es = ("制作失败: GIF 引擎未就绪", ["GIF 引擎未就绪"]) /\
  results st' = replicate 9 None /\
  isProcessing st' = false.
Proof.
  intros Hg Hm Hv HG es st'.
  assert (Hfail : produce_slice rev B st 0 = Rejected "GIF 引擎未就绪").
  { unfold produce_slice, sliceVideoToGif. by rewrite Hm, Hv, HG. }
  assert (Hes : es = process (produce_slice rev B st)).
  { subst es. unfold handleProcess. by rewrite Hg. }
  destruct (process_first_failure (produce_slice rev B st) 0
              "GIF 引擎未就绪" ltac:(lia) ltac:(intros; lia) Hfail st)
    as (Hs & Hco & _ & Hst & Hp & Hr).
  rewrite <- Hes in *. fold st' in Hst, Hp, Hr.
  split; [done|]. split; [done|].
  split; [unfold failure_report; fold st'; by rewrite Hst, Hco|].
  split; [|done].
  destruct Hr as [Hlen Hr]. apply list_eq. intros j.
  destruct (decide (j < 9)%nat) as [Hj|Hj].
  - destruct (Hr j Hj) as [_ Hn]. rewrite Hn by lia.
    by rewrite lookup_replicate_2.
  - rewrite (lookup_ge_None_2 (results st')) by lia.
    rewrite lookup_ge_None_2; [done|rewrite length_replicate; lia].
Qed.

Lemma gif_engine_missing_fails_first_slice_witness :
  status (run sample_video_state
            (handleProcess Rev1 browser_without_GIF sample_video_state))
  = "制作失败: GIF 引擎未就绪".
Proof.
  destruct (gif_engine_missing_fails_first_slice Rev1 browser_without_GIF
              sample_video_state responsive_video)
    as (_ & _ & Hrep & _).
  - reflexivity.
  - reflexivity.
  - reflexivity.
  - reflexivity.
  - exact (f_equal fst Hrep).
Defined.

(** X6.  When the loop reaches a slice and finds the element of the
    current mode missing (no picture in image mode, no video in video
    mode; the element of the other mode does not count), that slice fails
    with the text that no media source was found, and the run ends
    there. *)
Theorem missing_media_element_fails_slice rev B st i :
  not_ready st = false ->
  (i < 9)%nat ->
  (forall j, (j < i)%nat -> exists r, produce_slice rev B st j = Resolved r) ->
  (mode st = IMAGE /\ imageRef_current B i = None) \/
  (mode st = VIDEO /\ videoRef_current B i = None) ->
  let es := handleProcess rev B st in
  let st' := run st es in
  produce_slice rev B st i = Rejected "未发现媒体源" /\
  started es = seq 0 (S i) /\
  failure_report st es = ("制作失败: 未发现媒体源", ["未发现媒体源"]) /\
  prefix_filled i (results st') /\
  isProcessing st' = false.
Proof.
  intros Hg Hi Hbefore Hmiss es st'.
  assert (Hfail : produce_slice rev B st i = Rejected "未发现媒体源").
  { unfold produce_slice. destruct Hmiss as [[-> ->]|[-> ->]]; [done|].
    by destruct (imageRef_current B i). }
  assert (Hes : es = process (produce_slice rev B st)).
  { subst es. unfold handleProcess. by rewrite Hg. }
  destruct (process_first_failure (produce_slice rev B st) i
              "未发现媒体源" Hi Hbefore Hfail st)
    as (Hs & Hco & _ & Hst & Hp & Hr).
  rewrite <- Hes in *. fold st' in Hst, Hp, Hr.
  split; [done|]. split; [done|].
  split; [unfold failure_report; fold st'; by rewrite Hst, Hco|].
  by split.
Qed.

Lemma missing_media_element_fails_slice_witness :
  let es := handleProcess Rev1 (browser_unmounted_at 2) sample_image_state in
  started es = [0; 1; 2]%nat /\
  status (run sample_image_state es) = "制作失败: 未发现媒体源".
Proof.
  destruct (missing_media_element_fails_slice Rev1 (browser_unmounted_at 2)
              sample_image_state 2)
    as (_ & Hs & Hrep & _).
  - reflexivity.
  - lia.
  - intros j Hj.
    do 2 (destruct j as [|j]; [eexists; vm_compute; reflexivity|]). lia.
  - left. split; reflexivity.
  - split; [exact Hs|]. exact (f_equal fst Hrep).
Defined.

(** ** [sliceVideoToGif]: what a clip holds *)

(** X4.  Whenever [sliceVideoToGif] resolves, the GIF library and the
    worker were there, the encoder finished, and the clip was encoded with
    the quality of the settings at the size of the rectangle.  Its frames
    are those of the loop run to its end: frame 0 was taken at the start
    time and frame [k+1] one rounded step [1/fps] after frame [k]; each
    was drawn from the rectangle after a seek to a finite time that was
    answered within the bound, and carries the delay [1000/fps].  When
    [max(0.1, endTime - startTime) * fps] is a finite double, the clip
    holds at least one frame and at most as many as the larger of 1 and
    the floor of that product. *)
Theorem gif_clip_contents rev video sx sy sw sh s B worker r :
  sliceVideoToGif rev video sx sy sw sh s B worker = Resolved r ->
  exists gif,
    blob r = GifBlob (quality s) sw sh gif /\
    url r = createObjectURL B (blob r) /\
    window_GIF B = true /\
    truthy_string worker = true /\
    gif_finished B (Build_Rect sx sy sw sh) = true /\
    frame_time <$> gif = sample_times s /\
    length gif = frames_needed s /\
    (forall v,
       Binary64.to_Q (Math_max 0.1 (endTime s - startTime s) * fps s)%float
         = Some v ->
       (1 <= length gif)%nat /\
       Z.of_nat (length gif) <= Z.max 1 (Qfloor v)) /\
    forall k fr, gif !! k = Some fr ->
      frame_rect fr = Build_Rect sx sy sw sh /\
      delay fr = (1000 / fps s)%float /\
      frame_time fr
      = Nat.iter k (fun t => (t + 1 / fps s)%float) (startTime s) /\
      is_finite (frame_time fr) = true /\
      exists ms, seeked_after video k (frame_time fr) = Some ms /\
                 (ms < 5000)%nat.
Proof.
  unfold sliceVideoToGif, capture_all. intros Hres.
  destruct (window_GIF B); [|done].
  destruct (truthy_string worker); [|done]. cbn [negb orb] in Hres.
  destruct (capture rev video sx sy sw sh s (rounds s) 0 (startTime s) [])
    as [gif| |] eqn:Hcap; [|done..].
  destruct (gif_finished B (Build_Rect sx sy sw sh)); [|done].
  injection Hres as <-. exists gif. cbn [blob url].
  destruct (capture_resolved _ _ _ _ _ _ _ _ _ _ _ _ Hcap) as (-> & Hseeks).
  cbn [app] in *. fold (sample_times s) in Hseeks |- *.
  destruct (times_spec s (rounds s) (startTime s))
    as (Hlen & Hone & Htimes & _).
  fold (sample_times s) in Hlen, Hone, Htimes.
  repeat (split; [done|]).
  split; [by rewrite <- list_fmap_compose, list_fmap_id|].
  rewrite length_fmap. split; [done|]. split.
  - intros v Hv. split.
    + apply Hone, rounds_pos.
      by apply (to_Q_not_nan _ v).
    + pose proof (rounds_finite s v Hv). lia.
  - intros k fr Hk. rewrite list_lookup_fmap in Hk.
    destruct (sample_times s !! k) as [u|] eqn:Hu; [|done].
    injection Hk as <-. cbn [frame_at frame_rect delay frame_time].
    split; [done|]. split; [done|]. split; [by apply Htimes|].
    apply (seekTo_resolved rev video k u), (Hseeks k u Hu).
Qed.

Lemma gif_clip_contents_witness :
  exists r gif,
    sliceVideoToGif Rev1 responsive_video 0 0 213 160 sample_settings
      sample_browser (Some "blob:worker") = Resolved r /\
    blob r = GifBlob 10 213 160 gif /\
    length gif = 10%nat.
Proof.
  assert (Hr : exists r,
            sliceVideoToGif Rev1 responsive_video 0 0 213 160 sample_settings
              sample_browser (Some "blob:worker") = Resolved r)
    by (eexists; vm_compute; reflexivity).
  destruct Hr as [r Hr].
  destruct (gif_clip_contents Rev1 responsive_video 0 0 213 160
              sample_settings sample_browser (Some "blob:worker") r Hr)
    as (gif & Hb & _ & _ & _ & _ & _ & Hlen & _).
  exists r, gif. split; [exact Hr|]. split; [exact Hb|].
  rewrite Hlen. vm_compute. reflexivity.
Defined.


Lemma single_frame_lemma rev video sx sy sw sh s :
  PrimFloat.is_nan (clip_duration s * fps s) = false ->
  (endTime s <? startTime s + 1 / fps s)%float = true ->
  seekTo rev video 0 (startTime s) = Resolved tt ->
  capture_all rev video sx sy sw sh s
  = Resolved [ {| frame_time := startTime s;
                  frame_rect := Build_Rect sx sy sw sh;
                  delay := (1000 / fps s)%float |} ].
Proof.
  intros Hn Hshort Hseek. unfold capture_all.
  pose proof (rounds_pos s Hn) as Hpos.
  destruct (rounds s) as [|n]; [lia|].
  cbn [capture]. rewrite Hseek. unfold step. by rewrite Hshort.
Qed.



(** X16.  The frames of a clip follow the loop: the first is taken at
    the start time, each next one at the time of the one before plus the
    step [1/fps], the sum rounded to a double; every time is a finite
    number, and no frame after the first is taken past the end time.  The
    times need not differ: where the step is less than half the gap
    between neighbouring doubles the sum rounds back, and from the start
    time [10^16] the twenty frames of a two-second clip are all taken at
    the start time. *)
Theorem frame_times_advance_by_rounded_steps rev video sx sy sw sh s gif :
  capture_all rev video sx sy sw sh s = Resolved gif ->
  (forall fr, gif !! 0%nat = Some fr -> frame_time fr = startTime s) /\
  (forall k fr fr', gif !! k = Some fr -> gif !! S k = Some fr' ->
     frame_time fr' = (frame_time fr + 1 / fps s)%float /\
     (endTime s <? frame_time fr')%float = false) /\
  (forall k fr, gif !! k = Some fr -> is_finite (frame_time fr) = true) /\
  (exists gif',
     capture_all Rev1 responsive_video sx sy sw sh
       {| startTime := 10000000000000000; endTime := 10000000000000002;
          fps := 10; quality := 10 |} = Resolved gif' /\
     frame_time <$> gif' = replicate 20 10000000000000000%float).
Proof.
  intros Hcap. unfold capture_all in Hcap.
  apply capture_resolved in Hcap as (-> & Hseeks). cbn [app] in *.
  destruct (times_spec s (rounds s) (startTime s))
    as (_ & _ & Htimes & Hgo & _).
  assert (Hlk : forall k fr,
            (frame_at sx sy sw sh s <$> times s (rounds s) (startTime s)) !! k
            = Some fr ->
            times s (rounds s) (startTime s) !! k = Some (frame_time fr)).
  { intros k fr Hk. rewrite list_lookup_fmap in Hk.
    destruct (times s (rounds s) (startTime s) !! k) as [u|]; [|done].
    by injection Hk as <-. }
  split; [|split; [|split]].
  - intros fr Hk. apply Hlk in Hk. by rewrite (Htimes 0%nat _ Hk).
  - intros k fr fr' Hk Hk'. apply Hlk in Hk, Hk'. split.
    + rewrite (Htimes _ _ Hk'), (Htimes _ _ Hk). reflexivity.
    + apply (Hgo (S k)); [lia|done].
  - intros k fr Hk. apply Hlk in Hk.
    specialize (Hseeks k _ Hk). by apply seekTo_resolved in Hseeks as [? _].
  - eexists. split; [vm_compute; reflexivity|]. reflexivity.
Qed.

Lemma frame_times_advance_by_rounded_steps_witness :
  exists gif,
    capture_all Rev1 responsive_video 0 0 213 160 sample_settings
    = Resolved gif /\
    forall fr, gif !! 0%nat = Some fr -> frame_time fr = 0%float.
Proof.
  assert (Hcap : exists gif,
            capture_all Rev1 responsive_video 0 0 213 160 sample_settings
            = Resolved gif) by (eexists; vm_compute; reflexivity).
  destruct Hcap as [gif Hcap]. exists gif. split; [exact Hcap|].
  apply (frame_times_advance_by_rounded_steps Rev1 responsive_video
           0 0 213 160 sample_settings gif Hcap).
Defined.

(** ** [onVideoMetadata]: the default window *)

Ltac q_constants :=
  unfold Qdiv in *;
  change (/ 10)%Q with (1 # 10)%Q in *;
  change (/ 2)%Q with (1 # 2)%Q in *;
  change (/ 20)%Q with (1 # 20)%Q in *.

Lemma capped_at_six_checked :
  all_from (Z.to_nat 1000001) 0 capped_at_six = true.
Proof. vm_compute. reflexivity. Qed.

Lemma tenths_in_range_checked : all_from 61 0 tenths_in_range = true.
Proof. vm_compute. reflexivity. Qed.

(** The nearest tenth of a non-negative rational. *)
Lemma nearest_tenth v :
  (0 <= v)%Q ->
  let n := Qfloor (10 * v + 1 / 2)%Q in
  0 <= n /\
  (inject_Z n / 10 <= v + 1 / 20)%Q /\
  (v - 1 / 20 < inject_Z n / 10)%Q.
Proof.
  intros Hv n.
  pose proof (Qfloor_le (10 * v + 1 / 2)) as Hlo.
  pose proof (Qlt_floor (10 * v + 1 / 2)) as Hhi.
  rewrite inject_Z_plus in Hhi. change (inject_Z 1) with 1%Q in Hhi.
  fold n in Hlo, Hhi.
  assert (H0 : 0 <= n).
  { change 0 with (Qfloor 0). apply Qfloor_resp_le. q_constants. lra. }
  split; [done|]. q_constants. split; lra.
Qed.

(** [Number(d.toFixed(1))] for a duration [d >= 0] below [2^49]. *)
Lemma toFixed_1_tenths d v :
  Binary64.to_Q d = Some v ->
  (0 <= v)%Q -> (v < 562949953421312)%Q ->
  toFixed_1 d = tenths (Qfloor (10 * v + 1 / 2)%Q).
Proof.
  intros Hd H0 Hbig. unfold toFixed_1. rewrite Hd.
  pose proof (Qabs_pos v H0) as Habs.
  assert (Hsmall : Qle_bool 562949953421312 (Qabs v) = false).
  { apply not_true_iff_false. rewrite Qle_bool_iff, Habs. lra. }
  rewrite Hsmall.
  assert (Hpos : Qle_bool 0 v = true) by (by apply Qle_bool_iff).
  rewrite Hpos. f_equal. apply Qfloor_comp. by rewrite Habs.
Qed.

(** X7.  When the metadata of a video arrives whose duration [d] is a
    finite number from 0 to 100000 seconds, [onVideoMetadata] records the
    duration and the pixel size and resets the window: the start time
    becomes 0 and the end time becomes the double of the decimal [n/10],
    where [n/10] is [d] rounded to one decimal (a tie going up) and capped
    at [6.0].  So the end time lies between 0 and 6, is 6 for every video
    of 6 seconds or more, and for a shorter one differs from [d] by at
    most 0.05 (and the rounding of the decimal to a double): it can lie
    past the end of the video.  Frame rate and quality are kept. *)
Theorem metadata_sets_default_window video st v :
  Binary64.to_Q (element_duration video) = Some v ->
  (0 <= v)%Q -> (v <= 100000)%Q ->
  let d := element_duration video in
  let st' := onVideoMetadata (Some video) st in
  let n := Z.min 60 (Qfloor (10 * v + 1 / 2)%Q) in
  mediaInfo st' = {| duration := d; width := videoWidth video;
                     height := videoHeight video |} /\
  startTime (settings st') = 0%float /\
  endTime (settings st') = tenths n /\
  0 <= n <= 60 /\
  (exists e,
     Binary64.to_Q (endTime (settings st')) = Some e /\
     (0 <= e)%Q /\ (e <= 6)%Q /\
     (Qabs (e - inject_Z n / 10) <= 1 # 1000000000000)%Q /\
     (v <= 6 -> Qabs (e - v) <= 1 / 20 + (1 # 1000000000000))%Q) /\
  ((6 <= v)%Q -> endTime (settings st') = 6%float) /\
  fps (settings st') = fps (settings st) /\
  quality (settings st') = quality (settings st) /\
  results st' = results st /\
  onVideoMetadata None st = st.
Proof.
  intros Hd H0 Hmax d st' n.
  change (endTime (settings st')) with (Math_min 6 (toFixed_1 d)).
  destruct (nearest_tenth v H0) as (Hn0 & Hup & Hlow).
  set (m := Qfloor (10 * v + 1 / 2)%Q) in *.
  assert (Hm : m <= 1000000).
  { apply Z.lt_succ_r. rewrite Zlt_Qlt.
    eapply Qle_lt_trans; [apply Qfloor_le|].
    change (inject_Z (Z.succ 1000000)) with 1000001%Q. q_constants. lra. }
  assert (Hend : Math_min 6 (toFixed_1 d) = tenths n).
  { subst d. rewrite (toFixed_1_tenths _ v Hd H0) by lra. fold m.
    pose proof (all_from_spec _ _ _ m capped_at_six_checked ltac:(lia)) as Hc.
    by apply FloatAxioms.Leibniz.eqb_spec in Hc. }
  assert (Hn : 0 <= n <= 60) by (subst n; lia).
  pose proof (all_from_spec _ _ _ n tenths_in_range_checked ltac:(lia)) as Hr.
  unfold tenths_in_range in Hr.
  destruct (Binary64.to_Q (tenths n)) as [e|] eqn:He; [|done].
  apply andb_true_iff in Hr as [Hr Hclose].
  apply andb_true_iff in Hr as [Hlo Hhi].
  apply Qle_bool_iff in Hlo, Hhi, Hclose.
  split; [done|]. split; [done|]. split; [exact Hend|]. split; [done|].
  split.
  { exists e. rewrite Hend. split; [done|]. split; [done|]. split; [done|].
    split; [done|]. intros Hv6.
    assert (Hnm : n = m).
    { subst n. apply Z.min_r. apply Z.lt_succ_r. rewrite Zlt_Qlt.
      eapply Qle_lt_trans; [apply Qfloor_le|].
      change (inject_Z (Z.succ 60)) with 61%Q. q_constants. lra. }
    rewrite Hnm in Hclose.
    apply Qabs_Qle_condition in Hclose as [Hc1 Hc2].
    apply Qabs_Qle_condition. q_constants. split; lra. }
  split; [|done].
  intros Hv6. rewrite Hend.
  assert (Hn60 : n = 60).
  { subst n. apply Z.min_l. change 60 with (Qfloor 60).
    apply Qfloor_resp_le. q_constants. lra. }
  by rewrite Hn60.
Qed.

Lemma metadata_sets_default_window_witness :
  let video := {| element_duration := 2.96; videoWidth := 640;
                  videoHeight := 480 |} in
  endTime (settings (onVideoMetadata (Some video) initial_state)) = 3%float.
Proof.
  destruct (metadata_sets_default_window
              {| element_duration := 2.96; videoWidth := 640;
                 videoHeight := 480 |} initial_state
              (6665327448508334 # 2251799813685248)%Q)
    as (_ & _ & Hend & _).
  - vm_compute. reflexivity.
  - vm_compute. discriminate.
  - vm_compute. discriminate.
  - exact Hend.
Defined.

(** X8.  For a video shorter than 0.05 seconds the window set by
    [onVideoMetadata] is empty, start and end both 0; a clip made with it,
    the step [1/fps] being positive (as it is for every finite positive
    frame rate the page offers), is the single frame at time 0. *)
Theorem very_short_video_gives_one_frame
    rev element video sx sy sw sh st v :
  Binary64.to_Q (element_duration video) = Some v ->
  (0 <= v)%Q -> (v < 1 / 20)%Q ->
  (0 <? 1 / fps (settings st))%float = true ->
  seekTo rev element 0 0%float = Resolved tt ->
  let s := settings (onVideoMetadata (Some video) st) in
  startTime s = 0%float /\
  endTime s = 0%float /\
  capture_all rev element sx sy sw sh s
  = Resolved [ {| frame_time := 0%float;
                  frame_rect := Build_Rect sx sy sw sh;
                  delay := (1000 / fps (settings st))%float |} ].
Proof.
  intros Hd H0 Hshort Hstep Hseek s.
  assert (Hend : endTime s = 0%float).
  { change (endTime s)
      with (Math_min 6 (toFixed_1 (element_duration video))).
    rewrite (toFixed_1_tenths _ v Hd H0) by (q_constants; lra).
    assert (Hn : Qfloor (10 * v + 1 / 2)%Q = 0).
    { apply Z.le_antisymm.
      - apply Z.lt_succ_r.
        change (Z.succ 0) with (Qfloor 1 + 0).
        rewrite Zlt_Qlt.
        eapply Qle_lt_trans; [apply Qfloor_le|].
        change (inject_Z (Qfloor 1 + 0)) with 1%Q. q_constants. lra.
      - change 0 with (Qfloor 0) at 1. apply Qfloor_resp_le.
        q_constants. lra. }
    rewrite Hn. reflexivity. }
  split; [done|]. split; [done|].
  assert (Hs : s = {| startTime := 0; endTime := 0;
                      fps := fps (settings st);
                      quality := quality (settings st) |}).
  { transitivity {| startTime := 0; endTime := endTime s;
                    fps := fps (settings st);
                    quality := quality (settings st) |};
      [reflexivity|by rewrite Hend]. }
  rewrite Hs.
  apply (single_frame_lemma rev element sx sy sw sh
           {| startTime := 0; endTime := 0; fps := fps (settings st);
              quality := quality (settings st) |}).
  - change (clip_duration _) with 0.1%float.
    by apply tenth_times_rate_not_nan.
  - cbn [startTime endTime fps]. by rewrite zero_add.
  - exact Hseek.
Qed.

Lemma very_short_video_gives_one_frame_witness :
  let video := {| element_duration := 0.04; videoWidth := 640;
                  videoHeight := 480 |} in
  endTime (settings (onVideoMetadata (Some video) sample_video_state))
  = 0%float.
Proof.
  destruct (very_short_video_gives_one_frame Rev1 responsive_video
              {| element_duration := 0.04; videoWidth := 640;
                 videoHeight := 480 |} 0 0 213 160 sample_video_state
              (5764607523034235 # 144115188075855872)%Q)
    as (_ & Hend & _).
  - vm_compute. reflexivity.
  - vm_compute. discriminate.
  - reflexivity.
  - reflexivity.
  - reflexivity.
  - exact Hend.
Defined.

(** ** Geometry: what the grid covers *)

Lemma list_prod_nil_r {A B} (l : list A) : list_prod l (@nil B) = [].
Proof. induction l as [|a l IH]; [done|]. by cbn. Qed.

Lemma grid_cell_exists c px :
  0 < c -> 0 <= px < 3 * c ->
  exists k, (k < 3)%nat /\ Z.of_nat k * c <= px < Z.of_nat k * c + c.
Proof.
  intros Hc Hpx. exists (Z.to_nat (px / c)).
  assert (0 <= px / c) by (apply Z.div_pos; lia).
  assert (px / c < 3) by (apply Z.div_lt_upper_bound; lia).
  pose proof (Z.mod_pos_bound px c Hc).
  pose proof (Z.div_mod px c ltac:(lia)).
  rewrite Z2Nat.id by done. split; [lia|nia].
Qed.

(** X9.  For every source size the nine rectangles lie inside the
    source, and a pixel belongs to one of them exactly when it lies left
    of column [3 * floor(W/3)] and above row [3 * floor(H/3)]: what is cut
    off is at most the last two columns and the last two rows.  When the
    source is less than 3 pixels wide or high, all nine rectangles are
    empty. *)
Theorem grid_covers_all_but_two_columns_and_rows W H :
  0 <= W -> 0 <= H ->
  let mi := media W H in
  0 <= W - 3 * chunkW mi <= 2 /\
  0 <= H - 3 * chunkH mi <= 2 /\
  (forall i, (i < 9)%nat ->
     0 <= sx (slice_rect mi i) /\
     sx (slice_rect mi i) + sw (slice_rect mi i) <= W /\
     0 <= sy (slice_rect mi i) /\
     sy (slice_rect mi i) + sh (slice_rect mi i) <= H) /\
  (forall p,
     (exists i, (i < 9)%nat /\ covers (slice_rect mi i) p) <->
     (0 <= p.1 < 3 * chunkW mi /\ 0 <= p.2 < 3 * chunkH mi)) /\
  (W < 3 \/ H < 3 -> forall i, pixels (slice_rect mi i) = []).
Proof.
  intros HW HH mi.
  assert (Hcw : chunkW mi = W / 3) by done.
  assert (Hch : chunkH mi = H / 3) by done.
  pose proof (Z.div_mod W 3 ltac:(lia)) as HdW.
  pose proof (Z.mod_pos_bound W 3 ltac:(lia)) as HmW.
  pose proof (Z.div_mod H 3 ltac:(lia)) as HdH.
  pose proof (Z.mod_pos_bound H 3 ltac:(lia)) as HmH.
  assert (H0w : 0 <= chunkW mi) by (rewrite Hcw; apply Z.div_pos; lia).
  assert (H0h : 0 <= chunkH mi) by (rewrite Hch; apply Z.div_pos; lia).
  split; [lia|]. split; [lia|]. split; [|split].
  - intros i Hi. cbn [slice_rect sx sy sw sh].
    assert (Hc : (col i < 3)%nat) by (apply Nat.mod_upper_bound; lia).
    assert (Hr : (row i < 3)%nat)
      by (apply Nat.Div0.div_lt_upper_bound; lia).
    repeat split; nia.
  - intros [px py]. cbn [fst snd]. split.
    + intros (i & Hi & [Hx Hy]). cbn [slice_rect sx sy sw sh fst snd] in *.
      assert (Hc : (col i < 3)%nat) by (apply Nat.mod_upper_bound; lia).
      assert (Hr : (row i < 3)%nat)
        by (apply Nat.Div0.div_lt_upper_bound; lia).
      repeat split; nia.
    + intros [Hx Hy].
      destruct (grid_cell_exists (chunkW mi) px ltac:(lia) Hx)
        as (c & Hc & Hcx).
      destruct (grid_cell_exists (chunkH mi) py ltac:(lia) Hy)
        as (r & Hr & Hry).
      exists (3 * r + c)%nat. split; [lia|].
      assert (Hcol : col (3 * r + c) = c).
      { unfold col. rewrite Nat.add_comm, Nat.mul_comm, Nat.Div0.mod_add.
        by apply Nat.mod_small. }
      assert (Hrow : row (3 * r + c) = r).
      { unfold row. rewrite Nat.add_comm, Nat.mul_comm, Nat.div_add by lia.
        by rewrite Nat.div_small. }
      unfold covers. cbn [slice_rect sx sy sw sh fst snd].
      rewrite Hcol, Hrow. lia.
  - intros Hsmall i. unfold pixels. cbn [slice_rect sx sy sw sh].
    destruct Hsmall as [Hs|Hs].
    + assert (chunkW mi = 0) as -> by (rewrite Hcw; apply Z.div_small; lia).
      done.
    + assert (chunkH mi = 0) as -> by (rewrite Hch; apply Z.div_small; lia).
      rewrite (seqZ_nil _ 0) by lia. apply list_prod_nil_r.
Qed.

Lemma grid_covers_all_but_two_columns_and_rows_witness :
  0 <= 7 - 3 * chunkW (media 7 10) <= 2 /\
  pixels (slice_rect (media 2 10) 4) = [].
Proof.
  destruct (grid_covers_all_but_two_columns_and_rows 7 10)
    as (Hw & _); [lia..|].
  destruct (grid_covers_all_but_two_columns_and_rows 2 10)
    as (_ & _ & _ & _ & Hsmall); [lia..|].
  split; [exact Hw|]. apply Hsmall. left. lia.
Defined.

(** ** [handleDownloadAll]: every way it can end *)

Lemma concat_imap_silent (g : nat -> option SliceResult -> list Effect) rs :
  (forall i x, Forall silent (g i x)) ->
  Forall silent (concat (imap g rs)).
Proof.
  revert g. induction rs as [|x rs IH]; intros g Hg; [constructor|].
  cbn [imap concat]. apply Forall_app. split; [apply Hg|].
  apply IH. intros i y. apply Hg.
Qed.

Lemma add_files_silent m rs : Forall silent (add_files m rs).
Proof.
  apply concat_imap_silent. intros i [r|]; repeat constructor.
Qed.

Lemma add_files_shape m rs :
  Forall (fun e => exists n b, e = folder_file n b) (add_files m rs).
Proof.
  unfold add_files.
  assert (Hgen : forall (g : nat -> option SliceResult -> list Effect),
            (forall i x, Forall (fun e => exists n b, e = folder_file n b)
                           (g i x)) ->
            Forall (fun e => exists n b, e = folder_file n b)
              (concat (imap g rs))).
  { induction rs as [|x rs IH]; intros g Hg; [constructor|].
    cbn [imap concat]. apply Forall_app. split; [apply Hg|].
    apply IH. intros i y. apply Hg. }
  apply Hgen. intros i [r|]; repeat constructor. eauto.
Qed.

Lemma folder_files_observed es :
  Forall (fun e => exists n b, e = folder_file n b) es ->
  started es = [] /\ statuses es = [] /\
  (forall content fileName, saveAs content fileName ∉ es).
Proof.
  induction 1 as [|e es (n & b & ->) _ (IH1 & IH2 & IH3)].
  - repeat split; try done. intros c f Hin. by apply elem_of_nil in Hin.
  - repeat split; try done. intros c f Hin.
    apply elem_of_cons in Hin as [Hin|Hin]; [done|]. by apply (IH3 c f).
Qed.

Lemma existsb_is_null_button st :
  existsb is_null (results st) = negb (download_button_shown st).
Proof.
  unfold download_button_shown.
  induction (results st) as [|x rs IH]; [done|].
  cbn [existsb forallb]. rewrite IH. by destruct (is_null x).
Qed.

(** X10.  [handleDownloadAll] writes no cell of the state but the status
    text, and it starts no slice.  It does nothing at all unless every
    slot is filled, which is also the condition under which the download
    button is rendered.  Otherwise it ends in one of these ways: without
    the archive library, with the failure text and no archive operation;
    with the archive built but its generation rejected, with the failure
    text and [saveAs] not called; with the archive generated but
    [window.saveAs] missing, again with the failure text and nothing
    saved; with [saveAs] called on the archive under the folder's name and
    throwing, with the failure text; or with [saveAs] called and
    returning, with the text that the download has begun. *)
Theorem download_only_touches_status rev B st :
  let es := handleDownloadAll rev B st in
  let st' := run st es in
  results st' = results st /\
  progress st' = progress st /\
  isProcessing st' = isProcessing st /\
  same_inputs st st' /\
  started es = [] /\
  (download_button_shown st = false -> es = []) /\
  (download_button_shown st = true -> window_JSZip B = false ->
   es = [ setStatus (status_pack_failed rev) ]) /\
  (download_button_shown st = true -> window_JSZip B = true ->
   generateAsync_rejects B = true \/ window_saveAs B = false ->
   status st' = status_pack_failed rev /\
   (forall content fileName, saveAs content fileName ∉ es)) /\
  (download_button_shown st = true -> window_JSZip B = true ->
   generateAsync_rejects B = false -> window_saveAs B = true ->
   last (archive_ops es)
   = Some (saveAs (archive_content es) (folderName (mode st) +:+ ".zip")) /\
   status st' = (if saveAs_throws B then status_pack_failed rev
                 else "下载已开始")).
Proof.
  intros es st'. subst st' es. unfold handleDownloadAll.
  rewrite existsb_is_null_button.
  destruct (download_button_shown st) eqn:Hshown; cbn [negb].
  2:{ split; [done|]. split; [done|]. split; [done|].
      split; [apply same_inputs_refl|]. by repeat split. }
  destruct (window_JSZip B) eqn:Hz; cbn [negb].
  2:{ split; [done|]. split; [done|]. split; [done|].
      split; [by repeat split|]. by repeat split. }
  set (built := [new_JSZip; zip_folder (folderName (mode st))]
                ++ add_files (mode st) (results st)).
  pose proof (add_files_shape (mode st) (results st)) as Hshape.
  destruct (folder_files_observed _ Hshape) as (Hst & _ & Hsave).
  assert (Hbuilt : Forall silent built).
  { apply Forall_app. split; [repeat constructor|apply add_files_silent]. }
  assert (Hrun : forall tail, run st (built ++ tail) = run st tail).
  { intros tail. by rewrite run_app, (run_silent st built Hbuilt). }
  assert (Hstarted : started built = []).
  { unfold built. by rewrite started_app, Hst. }
  assert (Hnosave : forall c f tail,
            (forall e, e ∈ tail -> e <> saveAs c f) ->
            saveAs c f ∉ built ++ tail).
  { intros c f tail Htail Hin. apply elem_of_app in Hin as [Hin|Hin].
    - unfold built in Hin. apply elem_of_app in Hin as [Hin|Hin].
      + repeat (apply elem_of_cons in Hin as [Hin|Hin]; [discriminate Hin|]).
        by apply elem_of_nil in Hin.
      + by apply (Hsave c f).
    - by apply (Htail _ Hin). }
  assert (Hcontent : forall tail,
            omap (fun e => match e with
                           | zip_folder n => Some n | _ => None end) tail = [] ->
            omap (fun e => match e with
                           | folder_file n b => Some (n, b) | _ => None end)
                 tail = [] ->
            archive_content (built ++ tail) = archive_content built).
  { intros tail H1 H2. unfold archive_content.
    rewrite !omap_app, H1, app_nil_r. f_equal.
    assert (H3 : forall folder,
              omap (fun e => match e with
                             | folder_file n b => Some (folder +:+ "/" +:+ n, b)
                             | _ => None end) tail = []).
    { intros folder. clear -H2. induction tail as [|e tail IH]; [done|].
      destruct e; cbn in *; try (by apply IH). discriminate. }
    by rewrite H3, app_nil_r. }
  rewrite !Hrun.
  destruct (generateAsync_rejects B) eqn:Hrej.
  { split; [done|]. split; [done|]. split; [done|].
    split; [by repeat split|].
    split; [by rewrite started_app, Hstarted|].
    split; [done|]. split; [done|]. split; [|done].
    intros _ _ _. split; [done|].
    intros c f. apply Hnosave. intros e He.
    repeat (apply elem_of_cons in He as [->|He]; [done|]).
    by apply elem_of_nil in He. }
  destruct (window_saveAs B) eqn:Hs; cbn [negb].
  2:{ split; [done|]. split; [done|]. split; [done|].
      split; [by repeat split|].
      split; [by rewrite started_app, Hstarted|].
      split; [done|]. split; [done|]. split; [|done].
      intros _ _ _. split; [done|].
      intros c f. apply Hnosave. intros e He.
      repeat (apply elem_of_cons in He as [->|He]; [done|]).
      by apply elem_of_nil in He. }
  split; [done|]. split; [done|]. split; [done|].
  split; [by repeat split|].
  split; [by rewrite started_app, Hstarted|].
  split; [done|]. split; [done|]. split; [by intros _ _ [?|?]|].
  intros _ _ _ _. split; [|done].
  rewrite Hcontent by done.
  rewrite archive_ops_app.
  change (archive_ops (_ ++ [_; _]))
    with ([zip_generateAsync]
          ++ [saveAs (archive_content built)
                (folderName (mode st) +:+ ".zip")]).
  by rewrite app_assoc, last_snoc.
Qed.

Lemma download_only_touches_status_witness :
  let st := run sample_image_state
              (handleProcess Rev1 sample_browser sample_image_state) in
  download_button_shown st = true /\
  status (run st (handleDownloadAll Rev1 sample_browser st)) = "下载已开始" /\
  status (run st (handleDownloadAll Rev1 browser_without_saveAs st))
  = "打包失败".
Proof.
  split; [reflexivity|].
  destruct (download_only_touches_status Rev1 sample_browser
              (run sample_image_state
                 (handleProcess Rev1 sample_browser sample_image_state)))
    as (_ & _ & _ & _ & _ & _ & _ & _ & Hok).
  destruct (download_only_touches_status Rev1 browser_without_saveAs
              (run sample_image_state
                 (handleProcess Rev1 sample_browser sample_image_state)))
    as (_ & _ & _ & _ & _ & _ & _ & Hmissing & _).
  split.
  - apply Hok; reflexivity.
  - apply Hmissing; [reflexivity|reflexivity|]. right. reflexivity.
Defined.

(** ** [handleProcess]: what a run depends on *)

Lemma handleProcess_same_inputs rev B st st2 :
  same_inputs st st2 -> handleProcess rev B st2 = handleProcess rev B st.
Proof.
  intros (Hf & Hm & Hmi & Hs & Hw).
  unfold handleProcess, not_ready. rewrite Hf, Hm, Hw.
  destruct (_ || _); [done|]. f_equal.
  unfold produce_slice. by rewrite Hm, Hmi, Hs, Hw.
Qed.

Lemma handleProcess_keeps_inputs rev B st :
  Forall keeps_inputs (handleProcess rev B st).
Proof.
  unfold handleProcess. destruct (not_ready st).
  - destruct rev; repeat constructor; intros st0; apply same_inputs_refl.
  - apply process_keeps_inputs.
Qed.

Lemma last_app_same {A} (l : list A) :
  last (l ++ l) = last l.
Proof. rewrite last_app. by destruct (last l). Qed.

(** X11.  A run reads the file, the mode, the media size, the settings
    and the worker URL, and nothing else of the state: two states that
    agree on those give the same run, so results, progress or status left
    by an earlier run (failed or not) have no influence on the next one.
    A run writes none of the cells it reads.  Hence running again in the
    same browser repeats the same effects and ends with the same results,
    progress, status and processing flag. *)
Theorem run_depends_only_on_its_inputs rev B st :
  let es := handleProcess rev B st in
  let st' := run st es in
  (forall st2, same_inputs st st2 ->
     handleProcess rev B st2 = handleProcess rev B st) /\
  same_inputs st st' /\
  handleProcess rev B st' = es /\
  results (run st' (handleProcess rev B st')) = results st' /\
  progress (run st' (handleProcess rev B st')) = progress st' /\
  status (run st' (handleProcess rev B st')) = status st' /\
  isProcessing (run st' (handleProcess rev B st')) = isProcessing st'.
Proof.
  intros es st'.
  assert (Hsame : same_inputs st st').
  { apply run_keeps_inputs, handleProcess_keeps_inputs. }
  assert (Hagain : handleProcess rev B st' = es).
  { by apply handleProcess_same_inputs. }
  split; [intros st2; apply handleProcess_same_inputs|].
  split; [done|]. split; [done|]. rewrite Hagain.
  subst st'. rewrite <- run_app.
  rewrite !results_run, !progress_run_last, !status_run_last,
    !isProcessing_run.
  rewrite published_app, progress_values_app, statuses_app,
    processing_flags_app, !last_app_same.
  by repeat split.
Qed.

(** ** [handleProcess]: the processing flag *)

Lemma app_cons_snoc_prefix {A} (l1 l2 X : list A) e y :
  l1 ++ e :: l2 = X ++ [y] -> exists l2', X = l1 ++ l2'.
Proof.
  revert X. induction l1 as [|a l1 IH]; intros X Heq; [by exists X|].
  destruct X as [|x X].
  - cbn in Heq. injection Heq as _ Heq. by destruct l1.
  - cbn in Heq. injection Heq as -> Heq.
    destruct (IH X Heq) as [l2' ->]. by exists l2'.
Qed.

Lemma process_flags slice :
  processing_flags (process slice)
  = true :: match (for_loop slice 9 0 (replicate 9 None)).2 with
            | Suspended => []
            | _ => [false]
            end /\
  match (for_loop slice 9 0 (replicate 9 None)).2 with
  | Suspended => True
  | _ => exists X, process slice = X ++ [setIsProcessing false] /\
                   processing_flags X = [true]
  end.
Proof.
  pose proof (for_loop_keeps_inputs slice 9 0 (replicate 9 None)) as [_ Hfl].
  unfold process. rewrite !processing_flags_app, Hfl.
  destruct ((for_loop slice 9 0 (replicate 9 None)).2) as [|m|].
  - split; [done|].
    exists ([setIsProcessing true; setProgress 0%Q;
             setResults (replicate 9 None)]
            ++ (for_loop slice 9 0 (replicate 9 None)).1
            ++ [setStatus "所有切片制作完成！"]).
    split; [by rewrite <- !app_assoc|].
    by rewrite !processing_flags_app, Hfl.
  - split; [done|].
    exists ([setIsProcessing true; setProgress 0%Q;
             setResults (replicate 9 None)]
            ++ (for_loop slice 9 0 (replicate 9 None)).1
            ++ [console_error m; setStatus (status_failed m)]).
    split; [by rewrite <- !app_assoc|].
    by rewrite !processing_flags_app, Hfl.
  - done.
Qed.

(** X12.  From its first effect until its last, a run keeps
    [isProcessing] true: at every point strictly inside a run the process
    button is disabled, so that no second run can be started from the
    page while one is under way. *)
Theorem processing_flag_is_up_during_a_run rev B st es1 e es2 :
  handleProcess rev B st = es1 ++ e :: es2 ->
  es1 <> [] ->
  isProcessing (run st es1) = true /\
  process_button_disabled (run st es1) = true.
Proof.
  intros Hsplit Hne.
  assert (Hflag : isProcessing (run st es1) = true);
    [|split; [done|unfold process_button_disabled;
                   by rewrite Hflag, orb_true_r]].
  unfold handleProcess in Hsplit. destruct (not_ready st).
  { destruct rev, es1 as [|a [|b es1]]; try done; by destruct es1. }
  assert (Hhead : exists es1', es1 = setIsProcessing true :: es1').
  { destruct es1 as [|a es1']; [done|]. unfold process in Hsplit.
    cbn in Hsplit. injection Hsplit as <- _. by exists es1'. }
  destruct Hhead as [es1' ->].
  assert (Hfl : processing_flags (setIsProcessing true :: es1') = [true]).
  { destruct (process_flags (produce_slice rev B st)) as [Hall Hshape].
    destruct ((for_loop (produce_slice rev B st) 9 0 (replicate 9 None)).2)
      as [|m|].
    - destruct Hshape as (X & HX & HfX). rewrite HX in Hsplit.
      symmetry in Hsplit.
      destruct (app_cons_snoc_prefix _ _ _ _ _ Hsplit) as [l2' ->].
      rewrite processing_flags_app in HfX.
      cbn in HfX |- *. injection HfX as HfX.
      apply app_eq_nil in HfX as [-> _]. done.
    - destruct Hshape as (X & HX & HfX). rewrite HX in Hsplit.
      symmetry in Hsplit.
      destruct (app_cons_snoc_prefix _ _ _ _ _ Hsplit) as [l2' ->].
      rewrite processing_flags_app in HfX.
      cbn in HfX |- *. injection HfX as HfX.
      apply app_eq_nil in HfX as [-> _]. done.
    - rewrite Hsplit, processing_flags_app in Hall.
      cbn in Hall |- *. injection Hall as Hall.
      apply app_eq_nil in Hall as [-> _]. done. }
  by rewrite isProcessing_run, Hfl.
Qed.

Lemma processing_flag_is_up_during_a_run_witness :
  exists es1 e es2,
    handleProcess Rev1 sample_browser sample_image_state = es1 ++ e :: es2 /\
    isProcessing (run sample_image_state es1) = true.
Proof.
  exists (take 20 (handleProcess Rev1 sample_browser sample_image_state)).
  assert (Hsplit : exists e es2,
            handleProcess Rev1 sample_browser sample_image_state
            = take 20 (handleProcess Rev1 sample_browser sample_image_state)
              ++ e :: es2)
    by (do 2 eexists; vm_compute; reflexivity).
  destruct Hsplit as (e & es2 & Hsplit). exists e, es2.
  split; [exact Hsplit|].
  apply (processing_flag_is_up_during_a_run Rev1 sample_browser
           sample_image_state _ e es2 Hsplit).
  vm_compute. discriminate.
Defined.

(** ** The re-select button *)

(** X13.  The re-select button clears the file and the preview and
    nothing else: it revokes no object URL and leaves results, progress,
    status and mode as they were.  After it the process button is
    disabled and [handleProcess] starts nothing, yet the results of the
    last run stay on the page and [handleDownloadAll] packs them exactly
    as before. *)
Theorem reselect_keeps_results_downloadable rev B st :
  let st1 := run st reselect in
  file st1 = None /\
  previewUrl st1 = None /\
  (forall u, revokeObjectURL u ∉ reselect) /\
  results st1 = results st /\
  progress st1 = progress st /\
  status st1 = status st /\
  mode st1 = mode st /\
  process_button_disabled st1 = true /\
  started (handleProcess rev B st1) = [] /\
  results (run st1 (handleProcess rev B st1)) = results st /\
  download_button_shown st1 = download_button_shown st /\
  handleDownloadAll rev B st1 = handleDownloadAll rev B st.
Proof.
  intros st1. subst st1. cbn.
  repeat (split; [done|]).
  split.
  { intros u Hin.
    repeat (apply elem_of_cons in Hin as [Hin|Hin]; [discriminate Hin|]).
    by apply elem_of_nil in Hin. }
  repeat (split; [done|]).
  unfold handleProcess, not_ready. cbn.
  split; [by destruct rev|]. split; [by destruct rev|]. done.
Qed.

(** ** From the selection of a picture to the archive *)

Lemma handleFileChange_keeps_media B st f :
  let st1 := run st (handleFileChange B st (Some f)) in
  mediaInfo st1 = mediaInfo st /\
  settings st1 = settings st /\
  workerBlobUrl st1 = workerBlobUrl st /\
  isProcessing st1 = isProcessing st /\
  file st1 = Some f /\
  mode st1 = (if String.prefix "image/" (type f) then IMAGE else VIDEO).
Proof.
  intros st1. subst st1. unfold handleFileChange. rewrite run_app.
  assert (Hrev : run st (if truthy_string (previewUrl st)
                         then [revokeObjectURL (default "" (previewUrl st))]
                         else []) = st)
    by (by destruct (truthy_string (previewUrl st))).
  rewrite Hrev. by destruct (String.prefix "image/" (type f)).
Qed.

(** X14.  Selecting a file does not touch the recorded media size (nor
    the settings): until [onImageLoad] has run, a run cuts the new picture
    with the rectangles of whatever was loaded before, and in a freshly
    mounted component, where the recorded size is 0 x 0, every slice is an
    empty rectangle.  Once [onImageLoad] has recorded the natural size,
    the rectangles are those of the new picture.  A picture that could not
    be decoded fires no load event and makes [drawImage] throw: the slice
    then rejects, whatever the recorded size. *)
Theorem selection_keeps_the_old_media_size rev B st f size :
  String.prefix "image/" (type f) = true ->
  let st1 := run st (handleFileChange B st (Some f)) in
  let st2 := onImageLoad (Some size) st1 in
  mediaInfo st1 = mediaInfo st /\
  settings st1 = settings st /\
  (forall i img, imageRef_current B i = Some img ->
     let r := slice_rect (mediaInfo st) i in
     produce_slice rev B st1 i = sliceImage B img (sx r) (sy r) (sw r) (sh r) /\
     (drawImage_throws img = None ->
      produce_slice rev B st1 i
      = if toBlob_null B r then Pending
        else Resolved (png_slice B (mediaInfo st) i)) /\
     (forall m, drawImage_throws img = Some m ->
        produce_slice rev B st1 i = Rejected m /\
        produce_slice rev B st2 i = Rejected m)) /\
  (st = initial_state ->
   forall i, slice_rect (mediaInfo st1) i = Build_Rect 0 0 0 0) /\
  (forall i img, imageRef_current B i = Some img ->
     let r := slice_rect (media (naturalWidth size) (naturalHeight size)) i in
     produce_slice rev B st2 i = sliceImage B img (sx r) (sy r) (sw r) (sh r) /\
     (drawImage_throws img = None ->
      produce_slice rev B st2 i
      = if toBlob_null B r then Pending
        else Resolved (png_slice B
                         (media (naturalWidth size) (naturalHeight size)) i))) /\
  onImageLoad None st1 = st1.
Proof.
  intros Hf st1 st2.
  destruct (handleFileChange_keeps_media B st f)
    as (Hmi & Hs & _ & _ & _ & Hm). fold st1 in Hmi, Hs, Hm.
  rewrite Hf in Hm.
  assert (Hm2 : mode st2 = IMAGE) by done.
  split; [done|]. split; [done|]. split; [|split; [|split; [|done]]].
  - intros i img Hi r.
    rewrite (produce_slice_image rev B st1 i img Hm Hi), Hmi. fold r.
    split; [done|]. split.
    + intros Hdraw. unfold sliceImage. by rewrite Hdraw.
    + intros m Hdraw.
      rewrite (produce_slice_image rev B st2 i img Hm2 Hi).
      unfold sliceImage. by rewrite Hdraw.
  - intros -> i. rewrite Hmi. unfold slice_rect, chunkW, chunkH. cbn.
    by rewrite !Z.mul_0_r.
  - intros i img Hi r.
    rewrite (produce_slice_image rev B st2 i img Hm2 Hi).
    change (mediaInfo st2)
      with (media (naturalWidth size) (naturalHeight size)). fold r.
    split; [done|]. intros Hdraw. unfold sliceImage. by rewrite Hdraw.
Qed.

Lemma selection_keeps_the_old_media_size_witness :
  mediaInfo (run initial_state
               (handleFileChange sample_browser initial_state
                  (Some sample_photo)))
  = mediaInfo initial_state.
Proof.
  apply (selection_keeps_the_old_media_size Rev1 sample_browser
           initial_state sample_photo
           {| naturalWidth := 7; naturalHeight := 10 |}).
  reflexivity.
Defined.

(** X17.  The whole path for a picture: a file of an image type is
    selected, its natural size [W x H] is recorded by [onImageLoad], a run
    is made and the archive is downloaded, in a browser where the picture
    stays mounted and can be drawn, the canvas gives a blob for each
    rectangle, the archive library works, and [window.saveAs] is there and
    does not throw.  Whatever the state before, and whether or not the GIF
    worker was loaded, [saveAs] is called with the name
    [9_grid_images.zip] on an archive that holds exactly the files
    [9_grid_images/slice_1.png] to [9_grid_images/slice_9.png], file
    [i+1] being the PNG of rectangle [i] of the [W x H] grid, and the
    status ends as download begun. *)
Theorem picture_is_sliced_and_archived rev B st f size :
  String.prefix "image/" (type f) = true ->
  image_usable B ->
  (forall r, toBlob_null B r = false) ->
  window_JSZip B = true ->
  generateAsync_rejects B = false ->
  window_saveAs B = true ->
  saveAs_throws B = false ->
  let mi := media (naturalWidth size) (naturalHeight size) in
  let st1 := run st (handleFileChange B st (Some f)) in
  let st2 := onImageLoad (Some size) st1 in
  let st3 := run st2 (handleProcess rev B st2) in
  let es := handleDownloadAll rev B st3 in
  results st3 = (fun i => Some (png_slice B mi i)) <$> seq 0 9 /\
  last (archive_ops es)
  = Some (saveAs
            ((fun i => ("9_grid_images/slice_" +:+ pretty (i + 1)%nat
                          +:+ ".png",
                        PngBlob (slice_rect mi i))) <$> seq 0 9)
            "9_grid_images.zip") /\
  status (run st3 es) = "下载已开始".
Proof.
  intros Hf Himg Hblob Hz Hgen Hsave Hthrow mi st1 st2 st3 es.
  destruct (handleFileChange_keeps_media B st f)
    as (_ & _ & _ & _ & Hfile & Hm). fold st1 in Hfile, Hm.
  rewrite Hf in Hm.
  assert (Hm2 : mode st2 = IMAGE) by done.
  assert (Hf2 : truthy (file st2) = true).
  { change (file st2) with (file st1). by rewrite Hfile. }
  pose proof (not_ready_image st2 Hf2 Hm2) as Hg.
  assert (Hslice : forall i, produce_slice rev B st2 i
                             = Resolved (png_slice B mi i)).
  { intros i. rewrite (produce_slice_usable rev B st2 i Hm2 Himg).
    change (mediaInfo st2) with mi. by rewrite Hblob. }
  assert (Hall : forall j, (j < 9)%nat ->
            exists r, produce_slice rev B st2 j = Resolved r)
    by (intros j _; rewrite Hslice; eauto).
  destruct (process_completes _ Hall st2)
    as (_ & _ & _ & _ & _ & Hlen & Hslots).
  assert (Hes3 : handleProcess rev B st2 = process (produce_slice rev B st2)).
  { unfold handleProcess. by rewrite Hg. }
  rewrite <- Hes3 in Hlen, Hslots. fold st3 in Hlen, Hslots.
  assert (Hres : results st3
                 = (fun i => Some (png_slice B mi i)) <$> seq 0 9).
  { apply list_eq. intros j. destruct (decide (j < 9)%nat) as [Hj|Hj].
    - destruct (Hslots j Hj) as (r & Hr & Hl). rewrite Hl.
      rewrite Hslice in Hr. injection Hr as <-.
      by rewrite list_lookup_fmap, lookup_seq_lt.
    - rewrite !lookup_ge_None_2; [done| |lia].
      rewrite length_fmap, length_seq. lia. }
  assert (Hm3 : mode st3 = IMAGE).
  { destruct (run_keeps_inputs st2 (handleProcess rev B st2)
                (handleProcess_keeps_inputs rev B st2)) as (_ & Hmode & _).
    fold st3 in Hmode. by rewrite Hmode. }
  split; [done|].
  subst es. unfold handleDownloadAll.
  rewrite Hres, Hm3, Hz, Hgen, Hsave, Hthrow.
  split; reflexivity.
Qed.

Lemma picture_is_sliced_and_archived_witness :
  let st1 := run initial_state
               (handleFileChange sample_browser initial_state
                  (Some sample_photo)) in
  let st2 := onImageLoad (Some {| naturalWidth := 7; naturalHeight := 10 |})
               st1 in
  let st3 := run st2 (handleProcess Rev1 sample_browser st2) in
  status (run st3 (handleDownloadAll Rev1 sample_browser st3)) = "下载已开始".
Proof.
  apply (picture_is_sliced_and_archived Rev1 sample_browser initial_state
           sample_photo {| naturalWidth := 7; naturalHeight := 10 |}).
  - reflexivity.
  - intros i. exists sample_picture. by split.
  - reflexivity.
  - reflexivity.
  - reflexivity.
  - reflexivity.
  - reflexivity.
Defined.

(** ** [initGifWorker] *)

(** X18.  When the worker script cannot be fetched (a network error, a
    response that is not ok, or a body that cannot be read),
    [initGifWorker] sets the failure text and leaves the worker URL
    unset.  From then on a run in video mode returns at its guard and
    starts nothing, whatever file is selected, while a run in image mode
    is not held back.  When the script is fetched, the worker URL is set
    (status and results stay), and with a file selected the guard lets
    runs of both modes through. *)
Theorem worker_failure_blocks_video_only rev B fetched objectURL st :
  workerBlobUrl st = None ->
  let st1 := initGifWorker rev fetched objectURL st in
  match fetched with
  | Response true (Some workerCode) =>
      workerBlobUrl st1 = Some (objectURL workerCode) /\
      status st1 = status st /\
      results st1 = results st /\
      (objectURL workerCode <> "" -> truthy (file st1) = true ->
       not_ready st1 = false)
  | _ =>
      status st1 = status_init_failed rev /\
      workerBlobUrl st1 = None /\
      same_inputs st st1 /\
      (mode st1 = VIDEO ->
       started (handleProcess rev B st1) = [] /\
       published (handleProcess rev B st1) = []) /\
      (mode st1 = IMAGE -> truthy (file st1) = true ->
       not_ready st1 = false)
  end.
Proof.
  intros Hw st1. subst st1.
  assert (Hfail : let st1 := run st [ console_error "Failed to load GIF worker:";
                                      setStatus (status_init_failed rev) ] in
            status st1 = status_init_failed rev /\
            workerBlobUrl st1 = None /\
            same_inputs st st1 /\
            (mode st1 = VIDEO ->
             started (handleProcess rev B st1) = [] /\
             published (handleProcess rev B st1) = []) /\
            (mode st1 = IMAGE -> truthy (file st1) = true ->
             not_ready st1 = false)).
  { cbn. split; [done|]. split; [done|]. split; [by repeat split|]. split.
    - intros Hm. unfold handleProcess, not_ready. cbn. rewrite Hm, Hw. cbn.
      rewrite orb_true_r. by destruct rev.
    - intros Hm Hf. unfold not_ready. cbn. by rewrite Hm, Hf. }
  destruct fetched as [|[|] [code|]]; try exact Hfail.
  cbn. split; [done|]. split; [done|]. split; [done|].
  intros Hurl Hf. unfold not_ready. cbn. rewrite Hf. cbn.
  destruct (objectURL code); [done|]. cbn. by rewrite andb_false_r.
Qed.

Lemma worker_failure_blocks_video_only_witness :
  started (handleProcess Rev1 sample_browser
             (initGifWorker Rev1 NetworkError (fun _ => "blob:worker")
                (run initial_state
                   (handleFileChange sample_browser initial_state
                      (Some {| name := "clip.mp4"; type := "video/mp4" |})))))
  = [].
Proof.
  destruct (worker_failure_blocks_video_only Rev1 sample_browser NetworkError
              (fun _ => "blob:worker")
              (run initial_state
                 (handleFileChange sample_browser initial_state
                    (Some {| name := "clip.mp4"; type := "video/mp4" |}))))
    as (_ & _ & _ & Hvideo & _).
  - reflexivity.
  - apply Hvideo. reflexivity.
Defined.
